(** * Spack patch handling: a shallow embedding of [lib/spack/spack/patch.py]

    The development follows the source file top to bottom:

    - the two standard-library functions the fingerprint is built from,
      [hashlib.md5] and [base64.b32encode], written out so that the
      embedding computes on concrete bytes;
    - Python values, exceptions and name lookup, as far as [patch.py]
      needs them;
    - the world the code runs in (files, working directory, the
      collaborators from other modules of spack) and a state-and-exception
      monad with an event log;
    - [Patch.__init__], [Patch.file_hash], [Patch.apply], [Patch.get_patch],
      [get_url], [get_file], [file_hash] and [NoSuchPatchFileError];
    - the properties of these definitions. *)

From Stdlib Require Import ZArith List String Ascii Bool Lia DecimalString.
From Stdlib Require Import DecimalZ DecimalPos.
From Stdlib Require Import Init.Byte.
Import ListNotations.

Local Open Scope string_scope.
Local Open Scope list_scope.
Local Open Scope Z_scope.

(* ===================================================================== *)
(** ** Bytes *)
(* ===================================================================== *)

Module Bytes.

(** A byte as the integer [0 <= n < 256] it denotes. *)
Definition to_Z (b : byte) : Z := Z.of_N (Byte.to_N b).

Definition of_Z (z : Z) : byte :=
  match Byte.of_N (Z.to_N (z mod 256)) with
  | Some b => b
  | None => x00
  end.

(** The bytes of a text, one per character (Python 2 [str]). *)
Definition of_string (s : string) : list byte :=
  map byte_of_ascii (list_ascii_of_string s).

(** [n] little-endian bytes of [z]. *)
Fixpoint le_bytes (n : nat) (z : Z) : list byte :=
  match n with
  | O => []
  | S n' => of_Z z :: le_bytes n' (Z.shiftr z 8)
  end.

(** The integer a little-endian byte sequence denotes. *)
Fixpoint le_value (l : list byte) : Z :=
  match l with
  | [] => 0
  | b :: r => to_Z b + 256 * le_value r
  end.

(** Cut [l] into [n] consecutive blocks of [k] bytes. *)
Fixpoint blocks (k n : nat) (l : list byte) : list (list byte) :=
  match n with
  | O => []
  | S n' => firstn k l :: blocks k n' (skipn k l)
  end.

End Bytes.

(* ===================================================================== *)
(** ** [hashlib.md5]  (RFC 1321) *)
(* ===================================================================== *)

Module MD5.

Definition mask32 : Z := 0xFFFFFFFF.
Definition wrap (x : Z) : Z := x mod 2 ^ 32.
Definition add32 (x y : Z) : Z := wrap (x + y).
Definition not32 (x : Z) : Z := Z.lxor (wrap x) mask32.
Definition rotl32 (x n : Z) : Z :=
  wrap (Z.lor (Z.shiftl x n) (Z.shiftr (wrap x) (32 - n))).

(** Per-round shift amounts. *)
Definition shifts : list Z :=
  [ 7; 12; 17; 22; 7; 12; 17; 22; 7; 12; 17; 22; 7; 12; 17; 22;
    5;  9; 14; 20; 5;  9; 14; 20; 5;  9; 14; 20; 5;  9; 14; 20;
    4; 11; 16; 23; 4; 11; 16; 23; 4; 11; 16; 23; 4; 11; 16; 23;
    6; 10; 15; 21; 6; 10; 15; 21; 6; 10; 15; 21; 6; 10; 15; 21 ].

(** [floor (2^32 * abs (sin (i + 1)))] for [i = 0 .. 63]. *)
Definition sines : list Z :=
  [ 0xd76aa478; 0xe8c7b756; 0x242070db; 0xc1bdceee;
    0xf57c0faf; 0x4787c62a; 0xa8304613; 0xfd469501;
    0x698098d8; 0x8b44f7af; 0xffff5bb1; 0x895cd7be;
    0x6b901122; 0xfd987193; 0xa679438e; 0x49b40821;
    0xf61e2562; 0xc040b340; 0x265e5a51; 0xe9b6c7aa;
    0xd62f105d; 0x02441453; 0xd8a1e681; 0xe7d3fbc8;
    0x21e1cde6; 0xc33707d6; 0xf4d50d87; 0x455a14ed;
    0xa9e3e905; 0xfcefa3f8; 0x676f02d9; 0x8d2a4c8a;
    0xfffa3942; 0x8771f681; 0x6d9d6122; 0xfde5380c;
    0xa4beea44; 0x4bdecfa9; 0xf6bb4b60; 0xbebfbc70;
    0x289b7ec6; 0xeaa127fa; 0xd4ef3085; 0x04881d05;
    0xd9d4d039; 0xe6db99e5; 0x1fa27cf8; 0xc4ac5665;
    0xf4292244; 0x432aff97; 0xab9423a7; 0xfc93a039;
    0x655b59c3; 0x8f0ccc92; 0xffeff47d; 0x85845dd1;
    0x6fa87e4f; 0xfe2ce6e0; 0xa3014314; 0x4e0811a1;
    0xf7537e82; 0xbd3af235; 0x2ad7d2bb; 0xeb86d391 ].

Record regs := Regs { rA : Z; rB : Z; rC : Z; rD : Z }.

Definition init : regs :=
  Regs 0x67452301 0xefcdab89 0x98badcfe 0x10325476.

(** The mixing function and message-word index of operation [i]. *)
Definition mix (i : Z) (b c d : Z) : Z * Z :=
  if i <? 16 then (Z.lor (Z.land b c) (Z.land (not32 b) d), i)
  else if i <? 32 then
    (Z.lor (Z.land d b) (Z.land (not32 d) c), (5 * i + 1) mod 16)
  else if i <? 48 then (Z.lxor (Z.lxor b c) d, (3 * i + 5) mod 16)
  else (Z.lxor c (Z.lor b (not32 d)), (7 * i) mod 16).

Definition step (m : list Z) (r : regs) (i : nat) : regs :=
  let '(f, g) := mix (Z.of_nat i) (rB r) (rC r) (rD r) in
  let f' := add32 (add32 (add32 f (rA r)) (nth i sines 0))
                  (nth (Z.to_nat g) m 0) in
  Regs (rD r) (add32 (rB r) (rotl32 f' (nth i shifts 0))) (rB r) (rC r).

(** One 64-byte block, read as sixteen little-endian words. *)
Definition compress (r : regs) (block : list byte) : regs :=
  let m := map Bytes.le_value (Bytes.blocks 4 16 block) in
  let r' := fold_left (step m) (seq 0 64) r in
  Regs (add32 (rA r) (rA r')) (add32 (rB r) (rB r'))
       (add32 (rC r) (rC r')) (add32 (rD r) (rD r')).

(** Padding: a one bit, zeros up to 56 mod 64, the bit length on 64
    bits. *)
Definition pad (msg : list byte) : list byte :=
  let n := Z.of_nat (List.length msg) in
  msg ++ [x80] ++ repeat x00 (Z.to_nat ((55 - n) mod 64))
      ++ Bytes.le_bytes 8 ((8 * n) mod 2 ^ 64).

Definition digest (msg : list byte) : list byte :=
  let p := pad msg in
  let r := fold_left compress (Bytes.blocks 64 (List.length p / 64) p) init in
  Bytes.le_bytes 4 (rA r) ++ Bytes.le_bytes 4 (rB r)
    ++ Bytes.le_bytes 4 (rC r) ++ Bytes.le_bytes 4 (rD r).

End MD5.

(* ===================================================================== *)
(** ** [base64.b32encode] and [str.lower] *)
(* ===================================================================== *)

Module Base32.

Definition alphabet : string := "ABCDEFGHIJKLMNOPQRSTUVWXYZ234567".

(** The character for the 5-bit group of [v] that starts at bit
    [shift]. *)
Definition digit (v : Z) (shift : Z) : ascii :=
  match String.get (Z.to_nat (Z.land (Z.shiftr v shift) 31)) alphabet with
  | Some c => c
  | None => "="%char
  end.

(** The first [n] characters of the quantum of the 40-bit value [v],
    the rest filled with padding. *)
Definition quantum (v : Z) (n : nat) : string :=
  let all := [35; 30; 25; 20; 15; 10; 5; 0] in
  string_of_list_ascii
    (map (digit v) (firstn n all) ++ repeat "="%char (8 - n)).

Definition be40 (a b c d e : byte) : Z :=
  Z.shiftl (Bytes.to_Z a) 32 + Z.shiftl (Bytes.to_Z b) 24
  + Z.shiftl (Bytes.to_Z c) 16 + Z.shiftl (Bytes.to_Z d) 8
  + Bytes.to_Z e.

Fixpoint b32encode (s : list byte) : string :=
  match s with
  | [] => ""
  | [a] => quantum (be40 a x00 x00 x00 x00) 2
  | [a; b] => quantum (be40 a b x00 x00 x00) 4
  | [a; b; c] => quantum (be40 a b c x00 x00) 5
  | [a; b; c; d] => quantum (be40 a b c d x00) 7
  | a :: b :: c :: d :: e :: rest =>
      (quantum (be40 a b c d e) 8 ++ b32encode rest)%string
  end.

End Base32.

Module Str.

Definition lower_char (c : ascii) : ascii :=
  let n := nat_of_ascii c in
  if (65 <=? n)%nat && (n <=? 90)%nat then ascii_of_nat (n + 32) else c.

Fixpoint lower (s : string) : string :=
  match s with
  | EmptyString => EmptyString
  | String c r => String (lower_char c) (lower r)
  end.

(** [sub in s] for two texts. *)
Fixpoint contains (sub s : string) : bool :=
  String.prefix sub s ||
  match s with
  | EmptyString => false
  | String _ r => contains sub r
  end.

End Str.

(* ===================================================================== *)
(** ** Python values and exceptions *)
(* ===================================================================== *)

(** The values a caller can hand to [Patch(pkg, path_or_url, level)] as
    [level], and the values bound to the names [patch.py] looks up.  A
    float is kept by its printed form; an object of any other class by the
    name of its class. *)
Inductive value :=
| PyNone
| PyBool (b : bool)
| PyInt (z : Z)
| PyFloat (repr : string)
| PyStr (s : string)
| PyObject (cls : string).

(** [isinstance(v, int)]: [bool] is a subclass of [int].  Integers are
    unbounded, as in Python 3; under Python 2 [PyInt] stands for the values
    of [int], not of [long]. *)
Definition isinstance_int (v : value) : bool :=
  match v with
  | PyInt _ | PyBool _ => true
  | _ => false
  end.

(** The integer an instance of [int] denotes ([True] is 1, [False] is 0). *)
Definition int_value (v : value) : Z :=
  match v with
  | PyInt z => z
  | PyBool true => 1
  | _ => 0
  end.

(** [str(v)] *)
Definition str (v : value) : string :=
  match v with
  | PyNone => "None"
  | PyBool true => "True"
  | PyBool false => "False"
  | PyInt z => NilZero.string_of_int (Z.to_int z)
  | PyFloat r => r
  | PyStr s => s
  | PyObject cls => "<" ++ cls ++ " object>"
  end.

(** Truth value of an attribute that holds [None] or a text. *)
Definition truthy (o : option string) : bool :=
  match o with
  | None => false
  | Some s => negb (String.eqb s "")
  end.

(** The value of an attribute that holds [None] or a text. *)
Definition of_attribute (o : option string) : value :=
  match o with
  | None => PyNone
  | Some s => PyStr s
  end.

Inductive exn :=
| ValueError (message : string)
| NameError (name : string)
| AttributeError (message : string)
| TypeError (message : string)
| IOError (filename : string)
| NoSuchPatchFile (message : string) (package path : value)
| Foreign (cls message : string).
(* [Foreign]: an exception of a class defined in another module of spack,
   raised by one of the collaborators below. *)

(** [NoSuchPatchFileError.__init__(self, package, path)] *)
Definition NoSuchPatchFileError (package path : value) : exn :=
  NoSuchPatchFile
    ("No such patch file for package " ++ str package ++ ": " ++ str path)
    package path.

(** What an exception shows to whoever catches it: its class, its message
    and its attributes. *)
Definition exn_text (e : exn) : string :=
  match e with
  | ValueError m => "ValueError: " ++ m
  | NameError n => "NameError: global name '" ++ n ++ "' is not defined"
  | AttributeError m => "AttributeError: " ++ m
  | TypeError m => "TypeError: " ++ m
  | IOError f => "IOError: [Errno 2] No such file or directory: '" ++ f ++ "'"
  | NoSuchPatchFile m pk pa =>
      "NoSuchPatchFileError: " ++ m ++ " package=" ++ str pk
        ++ " path=" ++ str pa
  | Foreign c m => c ++ ": " ++ m
  end.

Definition carries (e : exn) (s : string) : Prop :=
  Str.contains s (exn_text e) = true.

Inductive outcome (A : Type) :=
| Return (a : A)
| Raise (e : exn).
Arguments Return {A} a.
Arguments Raise {A} e.

(* ===================================================================== *)
(** ** The world around [patch.py] *)
(* ===================================================================== *)

Inductive node :=
| File (content : list byte) (readable : bool)
| Directory.

(** Files are looked up by the path the code passes
    ([dirname_for_package_name] gives absolute directories). *)
Record World := mkWorld {
  files : string -> option node;
  cwd : string
}.

(** What the code does to the world and to its collaborators, in order. *)
Inductive event :=
| EvDirname (pkg : string)        (* spack.repo.dirname_for_package_name *)
| EvIsfile (path : string)        (* os.path.isfile *)
| EvChdirToSource                 (* stage.chdir_to_source() *)
| EvOpenRead (path : string)      (* open(path, 'rb') ... F.read() *)
| EvExec (args : list string)     (* _patch(...) *)
| EvStageEnter (url : value)      (* spack.stage.Stage(url).__enter__ *)
| EvFetch (url : value)           (* tmp_stage.fetch() *)
| EvStageExit (url : value).      (* Stage.__exit__ *)

(** The parts of spack that [patch.py] calls and that live in other
    modules. *)
Record Collab := mkCollab {
  (* spack.repo.dirname_for_package_name *)
  dirname_for_package_name : string -> string;
  (* llnl.util.filesystem.join_path *)
  join_path : string -> string -> string;
  (* _patch = which("patch", required=True): running the tool either
     returns or raises; a non-zero exit status makes the call raise *)
  _patch : list string -> World -> outcome unit * World;
  (* spack.stage.Stage(url): fetch() and the archive_file it leaves *)
  Stage_fetch : value -> World -> outcome string * World;
  (* spack.stage.Stage(url).__exit__ *)
  Stage_exit : value -> World -> World
}.

(** The [stage] argument of [Patch.apply]. *)
Record Stage := mkStage {
  chdir_to_source : World -> outcome unit * World
}.

Record Package := mkPackage { name : string }.

(** An instance of [class Patch]. *)
Record Patch := mkPatch {
  pkg_name : string;
  path_or_url : string;
  path : option string;
  url : option string;
  level : value;
  _file_hash : option string
}.

Definition set_path (v : option string) (p : Patch) : Patch :=
  mkPatch (pkg_name p) (path_or_url p) v (url p) (level p) (_file_hash p).
Definition set_url (v : option string) (p : Patch) : Patch :=
  mkPatch (pkg_name p) (path_or_url p) (path p) v (level p) (_file_hash p).
Definition set_file_hash (v : option string) (p : Patch) : Patch :=
  mkPatch (pkg_name p) (path_or_url p) (path p) (url p) (level p) v.

(* ===================================================================== *)
(** ** State, exceptions and the event log *)
(* ===================================================================== *)

(** [self], the world, and what has been done so far. *)
Record state := mkState {
  this : Patch;
  world : World;
  log : list event
}.

Definition M (A : Type) : Type := state -> outcome A * state.

Definition ret {A} (a : A) : M A := fun st => (Return a, st).
Definition raise {A} (e : exn) : M A := fun st => (Raise e, st).
Definition bind {A B} (m : M A) (k : A -> M B) : M B :=
  fun st =>
    match m st with
    | (Return a, st') => k a st'
    | (Raise e, st') => (Raise e, st')
    end.

Notation "x <- m ;; k" := (bind m (fun x => k))
  (at level 61, m at next level, right associativity).
Notation "m ;;; k" := (bind m (fun _ => k))
  (at level 61, right associativity).

Definition self : M Patch := fun st => (Return (this st), st).
Definition update (f : Patch -> Patch) : M unit :=
  fun st => (Return tt, mkState (f (this st)) (world st) (log st)).
Definition emit (e : event) : M unit :=
  fun st => (Return tt, mkState (this st) (world st) (log st ++ [e])).
(** A collaborator that acts on the world. *)
Definition on_world {A} (f : World -> outcome A * World) : M A :=
  fun st => let '(r, w) := f (world st) in (r, mkState (this st) w (log st)).

(** [os.path.isfile(path)] *)
Definition isfile (w : World) (path : string) : bool :=
  match files w path with
  | Some (File _ _) => true
  | _ => false
  end.

Definition os_path_isfile (path : string) : M bool :=
  emit (EvIsfile path) ;;;
  on_world (fun w => (Return (isfile w path), w)).

(** [with open(path, 'rb') as F: ... F.read()] *)
Definition read_bytes (w : World) (path : string) : outcome (list byte) :=
  match files w path with
  | Some (File content true) => Return content
  | _ => Raise (IOError path)
  end.

Definition open_read (path : option string) : M (list byte) :=
  match path with
  | None => raise (TypeError "coercing to Unicode: need string or buffer, NoneType found")
  | Some f => emit (EvOpenRead f) ;;; on_world (fun w => (read_bytes w f, w))
  end.

(** *** Names

    A name is looked up among the locals of the running function, then
    among the globals of the module, then among the builtins. *)

Definition module_globals : list (string * value) :=
  [ ("base64", PyObject "module"); ("os", PyObject "module");
    ("hashlib", PyObject "module"); ("contextmanager", PyObject "function");
    ("tty", PyObject "module"); ("join_path", PyObject "function");
    ("spack", PyObject "module"); ("_patch", PyObject "Executable");
    ("Patch", PyObject "type"); ("get_url", PyObject "function");
    ("get_file", PyObject "function"); ("file_hash", PyObject "function");
    ("NoSuchPatchFileError", PyObject "type") ].

Definition builtins : list (string * value) :=
  [ ("isinstance", PyObject "builtin_function_or_method");
    ("int", PyObject "type"); ("str", PyObject "type");
    ("open", PyObject "builtin_function_or_method");
    ("super", PyObject "type"); ("object", PyObject "type");
    ("ValueError", PyObject "type"); ("None", PyNone) ].

Fixpoint assoc (x : string) (l : list (string * value)) : option value :=
  match l with
  | [] => None
  | (y, v) :: r => if String.eqb x y then Some v else assoc x r
  end.

Definition load_name (locals : list (string * value)) (x : string)
  : M value :=
  match assoc x (locals ++ module_globals ++ builtins) with
  | Some v => ret v
  | None => raise (NameError x)
  end.

(** [v.url] for the values of this model, none of which has the
    attribute. *)
Definition getattr_url (v : value) : M value :=
  raise (AttributeError ("'" ++ str v ++ "' has no attribute 'url'")).

(* ===================================================================== *)
(** ** [patch.py] *)
(* ===================================================================== *)

Section PatchPy.

Variable c : Collab.

(** A function decorated with [@contextmanager], used in
    [with f(...) as x: body]: the code before [yield], the body on the
    yielded value, the code after. *)
Definition contextmanager (A : Type) : Type :=
  forall B : Type, (A -> M B) -> M B.

(** [with spack.stage.Stage(url) as tmp_stage: body]: the stage is
    released when the block is left, also by an exception. *)
Definition with_Stage {B} (u : value) (body : value -> M B) : M B :=
  emit (EvStageEnter u) ;;;
  (fun st =>
     let '(r, st') := body u st in
     (r, mkState (this st') (Stage_exit c u (world st'))
                 (log st' ++ [EvStageExit u]))).

(** <<
    @contextmanager
    def get_url(url):
        with spack.stage.Stage(self.url) as tmp_stage:
            tmp_stage.fetch()
            yield tmp_stage.archive_file
    >> *)
Definition get_url (url : option string) : contextmanager (option string) :=
  fun B body =>
    self_ <- load_name [("url", of_attribute url)] "self" ;;
    u <- getattr_url self_ ;;
    with_Stage u (fun tmp_stage =>
      emit (EvFetch tmp_stage) ;;;
      archive_file <- on_world (Stage_fetch c tmp_stage) ;;
      body (Some archive_file)).

(** <<
    @contextmanager
    def get_file(path):
        yield path
    >> *)
Definition get_file (path : option string)
  : contextmanager (option string) :=
  fun B body => body path.

(** <<
    def file_hash(path):
        with open(path, 'rb') as F:
            return base64.b32encode(hashlib.md5(F.read()).digest()).lower()
    >> *)
Definition file_hash (path : option string) : M string :=
  content <- open_read path ;;
  ret (Str.lower (Base32.b32encode (MD5.digest content))).

(** [_patch(...)]: one run of the patch tool *)
Definition call_patch (args : list string) : M unit :=
  emit (EvExec args) ;;;
  on_world (_patch c args).

(** <<
    def get_patch(self):
        if self.url:
            return get_url(self.url)
        else:
            return get_file(self.path)
    >> *)
Definition Patch_get_patch (me : Patch) : contextmanager (option string) :=
  if truthy (url me) then get_url (url me) else get_file (path me).

(** The local names of [__init__] at the [raise] of line 64. *)
Definition init_locals (pkg : Package) (path_or_url : string)
    (level : value) (pkg_dir : string) : list (string * value) :=
  [ ("self", PyObject "Patch"); ("pkg", PyObject "Package");
    ("path_or_url", PyStr path_or_url); ("level", level);
    ("pkg_dir", PyStr pkg_dir) ].

(** <<
    def __init__(self, pkg, path_or_url, level):
        self.pkg_name = pkg.name
        self.path_or_url = path_or_url
        self.path = None
        self.url = None
        self.level = level
        self._file_hash = None

        if not isinstance(self.level, int) or not self.level >= 0:
            raise ValueError("Patch level needs to be a non-negative integer.")

        if '://' in path_or_url:
            self.url = path_or_url
        else:
            pkg_dir = spack.repo.dirname_for_package_name(self.pkg_name)
            self.path = join_path(pkg_dir, path_or_url)
            if not os.path.isfile(self.path):
                raise NoSuchPatchFileError(pkg_name, self.path)
    >> *)
Definition Patch__init__ (pkg : Package) (path_or_url : string)
    (level : value) : M unit :=
  update (fun _ => mkPatch (name pkg) path_or_url None None level None) ;;;
  if negb (isinstance_int level) || negb (0 <=? int_value level) then
    raise (ValueError "Patch level needs to be a non-negative integer.")
  else if Str.contains "://" path_or_url then
    update (set_url (Some path_or_url))
  else
    me <- self ;;
    emit (EvDirname (pkg_name me)) ;;;
    let pkg_dir := dirname_for_package_name c (pkg_name me) in
    let p := join_path c pkg_dir path_or_url in
    update (set_path (Some p)) ;;;
    found <- os_path_isfile p ;;
    if negb found then
      pkg_name_ <- load_name (init_locals pkg path_or_url level pkg_dir)
                             "pkg_name" ;;
      raise (NoSuchPatchFileError pkg_name_ (PyStr p))
    else ret tt.

(** [Patch(pkg, path_or_url, level)] in world [w]: the new instance, or
    the exception [__init__] raised, and what was done meanwhile. *)
Definition Patch_new (pkg : Package) (path_or_url : string)
    (level : value) (w : World) : outcome Patch * list event :=
  let blank := mkPatch "" "" None None PyNone None in
  let '(r, st) := Patch__init__ pkg path_or_url level (mkState blank w [])
  in
  (match r with
   | Return _ => Return (this st)
   | Raise e => Raise e
   end, log st).

(** <<
    @property
    def file_hash(self):
        if not self._file_hash:
            with self.get_patch() as patch_file:
                self._file_hash = file_hash(patch_file)
        return self._file_hash
    >> *)
Definition Patch_file_hash : M (option string) :=
  me <- self ;;
  (if negb (truthy (_file_hash me)) then
     Patch_get_patch me unit (fun patch_file =>
       h <- file_hash patch_file ;;
       update (set_file_hash (Some h)))
   else ret tt) ;;;
  me' <- self ;;
  ret (_file_hash me').

(** <<
    def apply(self, stage):
        stage.chdir_to_source()

        patch_stage = None
        with self.get_patch() as patch_file:
            self._file_hash = file_hash(patch_file)

            # Use -N to allow the same patches to be applied multiple times.
            _patch('-s', '-p', str(self.level), '-i', patch_file)
    >> *)
Definition Patch_apply (stage : Stage) : M unit :=
  emit EvChdirToSource ;;;
  on_world (chdir_to_source stage) ;;;
  me <- self ;;
  Patch_get_patch me unit (fun patch_file =>
    h <- file_hash patch_file ;;
    update (set_file_hash (Some h)) ;;;
    me' <- self ;;
    match patch_file with
    | Some f => call_patch ["-s"; "-p"; str (level me'); "-i"; f]
    | None => raise (TypeError "expected a string, NoneType found")
    end).

(** [n] successive reads of the [file_hash] property. *)
Fixpoint file_hash_calls (n : nat) (st : state)
  : list (outcome (option string)) * state :=
  match n with
  | O => ([], st)
  | S n' =>
      let '(r, st1) := Patch_file_hash st in
      let '(rs, st2) := file_hash_calls n' st1 in
      (r :: rs, st2)
  end.

End PatchPy.

(** The invocations of the patch tool, the fetches and the number of
    calls of [chdir_to_source] in a log. *)
Definition execs (l : list event) : list (list string) :=
  flat_map (fun e => match e with EvExec a => [a] | _ => [] end) l.
Definition fetches (l : list event) : list value :=
  flat_map (fun e => match e with EvFetch u => [u] | _ => [] end) l.
Definition chdirs (l : list event) : nat :=
  List.length (filter (fun e => match e with EvChdirToSource => true
                                        | _ => false end) l).

(** The fingerprint of a patch whose bytes are [B]. *)
Definition fingerprint (B : list byte) : string :=
  Str.lower (Base32.b32encode (MD5.digest B)).

(* ===================================================================== *)
(** ** Notions the properties are stated with *)
(* ===================================================================== *)

(** [s] has [sub] somewhere inside. *)
Definition has_substring (sub s : string) : Prop :=
  exists a b, s = (a ++ sub ++ b)%string.

(** A strip level is acceptable when it is an [int] (or a [bool], which
    Python counts as one) and not below zero. *)
Inductive nonneg_integer : value -> Prop :=
| nonneg_int (z : Z) : 0 <= z -> nonneg_integer (PyInt z)
| nonneg_bool (b : bool) : nonneg_integer (PyBool b).

(** The path [__init__] resolves a local specifier to. *)
Definition local_path (c : Collab) (pkg : Package) (spec : string) : string :=
  join_path c (dirname_for_package_name c (name pkg)) spec.

Definition regular_file (w : World) (f : string) : Prop :=
  exists B r, files w f = Some (File B r).

Definition level_error : exn :=
  ValueError "Patch level needs to be a non-negative integer.".

(** [p] is a patch over the readable file [f], whose bytes are [B]. *)
Definition over_file (p : Patch) (w : World) (f : string) (B : list byte)
  : Prop :=
  truthy (url p) = false /\ path p = Some f
  /\ files w f = Some (File B true).

(** The cache of [p] is empty or holds the fingerprint of [B]. *)
Definition cache_agrees (p : Patch) (B : list byte) : Prop :=
  truthy (_file_hash p) = false \/ _file_hash p = Some (fingerprint B).

(** The arguments [apply] hands to the patch tool for the file [f]. *)
Definition patch_args (p : Patch) (f : string) : list string :=
  ["-s"; "-p"; str (level p); "-i"; f].

(** A stage whose [chdir_to_source] finds the process where it has to be
    and leaves everything as it is. *)
Definition already_in_place : Stage :=
  mkStage (fun w => (Return tt, w)).

(** No readable file is at [f]: there is nothing there, or a directory, or
    a file the process may not read. *)
Definition unreadable (w : World) (f : string) : Prop :=
  forall B, files w f <> Some (File B true).

(** The integer a decimal text denotes, if it is one. *)
Definition parse_int (s : string) : option Z :=
  option_map Z.of_int (NilZero.int_of_string s).

(** The digits of a lowercased base-32 text. *)
Definition base32_lower_digit (ch : ascii) : bool :=
  existsb (Ascii.eqb ch)
          (list_ascii_of_string "abcdefghijklmnopqrstuvwxyz234567").

(** The [n]-th digit of base 32, and the place of a lowercased digit
    among the thirty-two. *)
Definition base32_char (n : nat) : ascii :=
  match String.get n Base32.alphabet with
  | Some ch => ch
  | None => "="%char
  end.

Fixpoint index_in (ch : ascii) (l : list ascii) : nat :=
  match l with
  | [] => O
  | x :: r => if Ascii.eqb ch x then O else S (index_in ch r)
  end.

Definition base32_lower_index (ch : ascii) : nat :=
  index_in ch (list_ascii_of_string "abcdefghijklmnopqrstuvwxyz234567").

(** The places of the eight digits of a 40-bit group. *)
Definition quantum_shifts : list Z := [35; 30; 25; 20; 15; 10; 5; 0].

(* ===================================================================== *)
(** ** A concrete setting *)
(* ===================================================================== *)

Module Scenario.

(** [os.path.join] on two POSIX paths. *)
Definition posix_join (a b : string) : string :=
  if String.prefix "/" b then b
  else if String.eqb a "" then b
  else if String.eqb (substring (String.length a - 1) 1 a) "/"
       then a ++ b
       else a ++ "/" ++ b.

Definition repo (pkg : string) : string :=
  "/spack/var/spack/repos/builtin/packages/" ++ pkg.

Definition diff : list byte :=
  Bytes.of_string "--- a/x" ++ [x0a] ++ Bytes.of_string "+++ b/x" ++ [x0a].

(** The package directory of [foo] holds [fix-build.patch]; that of
    [bar] is empty. *)
Definition disk (p : string) : option node :=
  if String.eqb p (repo "foo") then Some Directory
  else if String.eqb p (repo "bar") then Some Directory
  else if String.eqb p (repo "foo" ++ "/fix-build.patch")
       then Some (File diff true)
  else None.

Definition w0 : World := mkWorld disk "/home/user".

(** The same disk with one more patch file, outside the package
    directories. *)
Definition disk_tmp (p : string) : option node :=
  if String.eqb p "/tmp/fix.patch" then Some (File diff true) else disk p.

Definition w_tmp : World := mkWorld disk_tmp "/home/user".

(** The disk after [fix-build.patch] has been removed, and the disk on
    which it may not be read. *)
Definition w_gone : World := mkWorld (fun _ => None) "/home/user".

Definition disk_locked (p : string) : option node :=
  if String.eqb p (repo "foo" ++ "/fix-build.patch")
  then Some (File diff false) else disk p.

Definition w_locked : World := mkWorld disk_locked "/home/user".

(** A patch tool that succeeds and leaves the world alone. *)
Definition tool_ok (args : list string) (w : World)
  : outcome unit * World := (Return tt, w).

(** A patch tool that rejects its input: the call raises the error of
    spack's process wrapper, which reports the exit status and the
    command line. *)
Definition tool_fails (args : list string) (w : World)
  : outcome unit * World :=
  (Raise (Foreign "ProcessError"
            ("Command exited with status 1: /usr/bin/patch "
               ++ String.concat " " args)), w).

Definition fetch_ok (u : value) (w : World) : outcome string * World :=
  (Return "/tmp/spack-stage/p.patch", w).

Definition env (tool : list string -> World -> outcome unit * World)
  : Collab :=
  mkCollab repo posix_join tool fetch_ok (fun _ w => w).

(** A stage whose expanded source is at [/stage/foo/src]. *)
Definition stage : Stage :=
  mkStage (fun w => (Return tt, mkWorld (files w) "/stage/foo/src")).

(** A stage without an expanded archive: [chdir_to_source] dies. *)
Definition stage_unexpanded : Stage :=
  mkStage (fun w =>
             (Raise (Foreign "SystemExit"
                       "Attempt to chdir before expanding archive."), w)).

Definition foo : Package := mkPackage "foo".
Definition bar : Package := mkPackage "bar".

(** Scenario A: [Patch(foo, "fix-build.patch", 1)]. *)
Definition fix_build : string :=
  "/spack/var/spack/repos/builtin/packages/foo/fix-build.patch".
Definition patchA : Patch :=
  mkPatch "foo" "fix-build.patch" (Some fix_build) None (PyInt 1) None.

(** A patch of [foo] given by an absolute path:
    [Patch(foo, "/tmp/fix.patch", 1)]. *)
Definition patchT : Patch :=
  mkPatch "foo" "/tmp/fix.patch" (Some "/tmp/fix.patch") None (PyInt 1)
          None.

(** Scenario B: [Patch(bar, "https://example.org/p.patch", 0)]. *)
Definition patchB : Patch :=
  mkPatch "bar" "https://example.org/p.patch" None
          (Some "https://example.org/p.patch") (PyInt 0) None.

End Scenario.

(* ===================================================================== *)
(** ** The scenarios, evaluated *)
(* ===================================================================== *)

Example scenario_A_constructed :
  Patch_new (Scenario.env Scenario.tool_ok) Scenario.foo "fix-build.patch"
            (PyInt 1) Scenario.w0
  = (Return Scenario.patchA,
     [EvDirname "foo"; EvIsfile Scenario.fix_build]).
Proof. reflexivity. Qed.

Example absolute_specifier_constructed :
  Patch_new (Scenario.env Scenario.tool_fails) Scenario.foo "/tmp/fix.patch"
            (PyInt 1) Scenario.w_tmp
  = (Return Scenario.patchT, [EvDirname "foo"; EvIsfile "/tmp/fix.patch"]).
Proof. reflexivity. Qed.

Example md5_empty :
  fingerprint [] = "2qoyzwmpaczaj2mabgmoz6ccpy======".
Proof. vm_compute. reflexivity. Qed.

Example md5_abc :
  fingerprint (Bytes.of_string "abc") = "saavbgb42jh3bvuwh56sryl7oi======".
Proof. vm_compute. reflexivity. Qed.

Example md5_diff :
  fingerprint Scenario.diff = "mrjqj7j4rrvfww5u7w4v27ccue======".
Proof. vm_compute. reflexivity. Qed.

(** The test vectors of RFC 4648 for base 32. *)
Example b32encode_rfc4648 :
  map (fun s => Base32.b32encode (Bytes.of_string s))
      ["f"; "fo"; "foo"; "foob"; "fooba"; "foobar"]
  = ["MY======"; "MZXQ===="; "MZXW6==="; "MZXW6YQ="; "MZXW6YTB";
     "MZXW6YTBOI======"].
Proof. vm_compute. reflexivity. Qed.

Example md5_padding_boundaries :
  fingerprint (repeat "a"%byte 56) = "hmgivryd7aulatdmdfyanulsda======" /\
  fingerprint (repeat "a"%byte 64) = "afeefveawvyuswskanrxsp3tm4======" /\
  fingerprint (repeat "a"%byte 119) = "rj55a4zo22rizz27nwv4sdqwcm======".
Proof. vm_compute. repeat split. Qed.

(* ===================================================================== *)
(** ** Texts and fingerprints *)
(* ===================================================================== *)

Lemma prefix_true_iff (sub s : string) :
  String.prefix sub s = true <-> exists b, s = (sub ++ b)%string.
Proof.
  revert s. induction sub as [|ch sub IH]; intros s; destruct s as [|ch' s];
    simpl.
  - split; [intros _; exists ""; reflexivity | reflexivity].
  - split; [intros _; eexists; reflexivity | reflexivity].
  - split; [discriminate | intros [b Hb]; discriminate].
  - destruct (ascii_dec ch ch') as [->|Hne].
    + rewrite IH. split; intros [b Hb]; exists b; congruence.
    + split; [discriminate | intros [b Hb]; congruence].
Qed.

(** [Str.contains] decides [has_substring]. *)
Lemma contains_true_iff (sub s : string) :
  Str.contains sub s = true <-> has_substring sub s.
Proof.
  unfold has_substring. induction s as [|ch s IH]; cbn [Str.contains].
  - rewrite orb_false_r, prefix_true_iff. split.
    + intros [b Hb]. exists "", b. exact Hb.
    + intros [a [b Hab]]. destruct a; simpl in Hab.
      * exists b. exact Hab.
      * discriminate.
  - rewrite orb_true_iff, prefix_true_iff, IH. split.
    + intros [[b Hb] | [a [b Hab]]].
      * exists "", b. exact Hb.
      * exists (String ch a), b. simpl. congruence.
    + intros [a [b Hab]]. destruct a as [|ch' a]; simpl in Hab.
      * left. exists b. exact Hab.
      * right. exists a, b. congruence.
Qed.

Lemma contains_false_iff (sub s : string) :
  Str.contains sub s = false <-> ~ has_substring sub s.
Proof.
  rewrite <- contains_true_iff. destruct (Str.contains sub s); split;
    congruence.
Qed.

Lemma lower_length (s : string) :
  String.length (Str.lower s) = String.length s.
Proof. induction s; simpl; congruence. Qed.

Lemma append_length (s t : string) :
  String.length (s ++ t) = (String.length s + String.length t)%nat.
Proof. induction s; simpl; congruence. Qed.

Lemma digest_length (B : list byte) : List.length (MD5.digest B) = 16%nat.
Proof.
  unfold MD5.digest.
  generalize (fold_left MD5.compress
                (Bytes.blocks 64 (List.length (MD5.pad B) / 64) (MD5.pad B))
                MD5.init).
  intros r. reflexivity.
Qed.

Lemma quantum_length (v : Z) (n : nat) :
  (n <= 8)%nat -> String.length (Base32.quantum v n) = 8%nat.
Proof.
  intros Hn. unfold Base32.quantum.
  do 9 (destruct n as [|n]; [reflexivity|]). lia.
Qed.

(** Sixteen bytes are written as twenty-six digits and six padding
    characters. *)
Lemma b32encode_16_length (l : list byte) :
  List.length l = 16%nat -> String.length (Base32.b32encode l) = 32%nat.
Proof.
  intros Hl.
  do 16 (destruct l as [|? l]; [discriminate|]).
  destruct l; [|discriminate].
  cbn [Base32.b32encode].
  rewrite !append_length, !quantum_length by lia. reflexivity.
Qed.

Lemma fingerprint_length (B : list byte) :
  String.length (fingerprint B) = 32%nat.
Proof.
  unfold fingerprint.
  rewrite lower_length. apply b32encode_16_length, digest_length.
Qed.

(** A fingerprint is never the empty text, so a cached fingerprint is
    true in a condition. *)
Lemma fingerprint_truthy (B : list byte) :
  truthy (Some (fingerprint B)) = true.
Proof.
  pose proof (fingerprint_length B) as H.
  unfold truthy. destruct (fingerprint B); [discriminate | reflexivity].
Qed.

(* ===================================================================== *)
(** ** Construction *)
(* ===================================================================== *)

Lemma level_test_false_iff (lvl : value) :
  negb (isinstance_int lvl) || negb (0 <=? int_value lvl) = false
  <-> nonneg_integer lvl.
Proof.
  split.
  - destruct lvl as [|b|z|r|s|cls]; simpl; try discriminate.
    + intros _. constructor.
    + intros H. apply negb_false_iff, Z.leb_le in H. now constructor.
  - intros [z Hz|b]; simpl.
    + apply negb_false_iff, Z.leb_le. exact Hz.
    + now destruct b.
Qed.

Lemma level_test_true_iff (lvl : value) :
  negb (isinstance_int lvl) || negb (0 <=? int_value lvl) = true
  <-> ~ nonneg_integer lvl.
Proof.
  rewrite <- level_test_false_iff.
  destruct (negb (isinstance_int lvl) || negb (0 <=? int_value lvl));
    split; congruence.
Qed.

Lemma isfile_true_iff (w : World) (f : string) :
  isfile w f = true <-> regular_file w f.
Proof.
  unfold isfile, regular_file. destruct (files w f) as [[B r|]|].
  - split; eauto.
  - split; [discriminate | intros [B [r H]]; discriminate].
  - split; [discriminate | intros [B [r H]]; discriminate].
Qed.

(** The four ways through [__init__]. *)

Lemma new_bad_level c pkg spec lvl w :
  ~ nonneg_integer lvl ->
  Patch_new c pkg spec lvl w = (Raise level_error, []).
Proof.
  intros H. apply level_test_true_iff in H.
  unfold Patch_new, Patch__init__, bind, update. cbn [this world log].
  rewrite H. reflexivity.
Qed.

Lemma new_remote c pkg spec lvl w :
  nonneg_integer lvl -> has_substring "://" spec ->
  Patch_new c pkg spec lvl w
  = (Return (mkPatch (name pkg) spec None (Some spec) lvl None), []).
Proof.
  intros Hl Hs. apply level_test_false_iff in Hl.
  apply contains_true_iff in Hs.
  unfold Patch_new, Patch__init__, bind, update. cbn [this world log].
  rewrite Hl, Hs. reflexivity.
Qed.

Lemma new_local_found c pkg spec lvl w :
  nonneg_integer lvl -> ~ has_substring "://" spec ->
  regular_file w (local_path c pkg spec) ->
  Patch_new c pkg spec lvl w
  = (Return (mkPatch (name pkg) spec (Some (local_path c pkg spec)) None
                     lvl None),
     [EvDirname (name pkg); EvIsfile (local_path c pkg spec)]).
Proof.
  intros Hl Hs Hf. apply level_test_false_iff in Hl.
  apply contains_false_iff in Hs. apply isfile_true_iff in Hf.
  unfold local_path in *.
  unfold Patch_new, Patch__init__, os_path_isfile, on_world, bind, update,
    self, emit, ret.
  cbn [this world log pkg_name]. rewrite Hl, Hs. cbn. rewrite Hf.
  reflexivity.
Qed.

Lemma new_local_missing c pkg spec lvl w :
  nonneg_integer lvl -> ~ has_substring "://" spec ->
  ~ regular_file w (local_path c pkg spec) ->
  Patch_new c pkg spec lvl w
  = (Raise (NameError "pkg_name"),
     [EvDirname (name pkg); EvIsfile (local_path c pkg spec)]).
Proof.
  intros Hl Hs Hf. apply level_test_false_iff in Hl.
  apply contains_false_iff in Hs.
  rewrite <- isfile_true_iff in Hf. apply not_true_is_false in Hf.
  unfold local_path in *.
  unfold Patch_new, Patch__init__, os_path_isfile, on_world, bind, update,
    self, emit, ret.
  cbn [this world log pkg_name]. rewrite Hl, Hs. cbn. rewrite Hf.
  reflexivity.
Qed.

(** C1.  A local specifier whose resolved path is not a regular file
    should make construction fail with [NoSuchPatchFileError] carrying the
    package name and the path.  Scenario C of the specification (package
    [bar], specifier [missing.patch], no such file): [__init__] reaches the
    [raise] statement, but its argument [pkg_name] is not a name bound in
    [__init__] or in the module, so the exception that leaves the
    constructor is a [NameError]; no [NoSuchPatchFileError] is built. *)
Theorem missing_patch_file_raises_NameError :
  Patch_new (Scenario.env Scenario.tool_ok) Scenario.bar "missing.patch"
            (PyInt 1) Scenario.w0
  = (Raise (NameError "pkg_name"),
     [EvDirname "bar";
      EvIsfile "/spack/var/spack/repos/builtin/packages/bar/missing.patch"])
  /\ NameError "pkg_name"
     <> NoSuchPatchFileError
          (PyStr "bar")
          (PyStr "/spack/var/spack/repos/builtin/packages/bar/missing.patch").
Proof. split; [vm_compute; reflexivity | discriminate]. Qed.

(** C4.  After a successful construction exactly one of [path] and [url]
    is set; [url] is the one set if and only if the specifier contains
    [://]; and for such a specifier the constructor does nothing to the
    outside: no directory lookup, no file test, no fetch. *)
Theorem new_sets_exactly_one_source c pkg spec lvl w p lg :
  Patch_new c pkg spec lvl w = (Return p, lg) ->
  (path p = None <-> url p <> None)
  /\ (url p <> None <-> has_substring "://" spec)
  /\ (has_substring "://" spec -> url p = Some spec /\ lg = []).
Proof.
  intros Hnew.
  destruct (negb (isinstance_int lvl) || negb (0 <=? int_value lvl)) eqn:Hl.
  { apply level_test_true_iff in Hl.
    rewrite (new_bad_level c pkg spec lvl w Hl) in Hnew. discriminate. }
  apply level_test_false_iff in Hl.
  destruct (Str.contains "://" spec) eqn:Hs.
  - apply contains_true_iff in Hs.
    rewrite (new_remote c pkg spec lvl w Hl Hs) in Hnew.
    injection Hnew as <- <-. cbn [path url].
    repeat split; auto; try discriminate.
  - apply contains_false_iff in Hs.
    destruct (isfile w (local_path c pkg spec)) eqn:Hf.
    + apply isfile_true_iff in Hf.
      rewrite (new_local_found c pkg spec lvl w Hl Hs Hf) in Hnew.
      injection Hnew as <- <-. cbn [path url].
      repeat split; try discriminate; try congruence; try contradiction.
    + assert (Hnf : ~ regular_file w (local_path c pkg spec)).
      { rewrite <- isfile_true_iff. congruence. }
      rewrite (new_local_missing c pkg spec lvl w Hl Hs Hnf) in Hnew.
      discriminate.
Qed.

Lemma new_sets_exactly_one_source_witness :
  let p := mkPatch "foo" "fix-build.patch"
             (Some "/spack/var/spack/repos/builtin/packages/foo/fix-build.patch")
             None (PyInt 1) None in
  (path p = None <-> url p <> None)
  /\ (url p <> None <-> has_substring "://" "fix-build.patch")
  /\ (has_substring "://" "fix-build.patch" ->
      url p = Some "fix-build.patch"
      /\ [EvDirname "foo";
          EvIsfile "/spack/var/spack/repos/builtin/packages/foo/fix-build.patch"]
         = []).
Proof.
  exact (new_sets_exactly_one_source
           (Scenario.env Scenario.tool_ok) Scenario.foo "fix-build.patch"
           (PyInt 1) Scenario.w0 _ _ eq_refl).
Defined.

(** C5.  With a strip level that is a non-negative integer and a local
    specifier that names an existing file, construction succeeds; with any
    other strip level it fails with the [ValueError] for patch levels, and
    the log is empty: the level is tested before the package directory is
    looked up and before any file is touched. *)
Theorem new_validates_level c pkg spec lvl w :
  (nonneg_integer lvl ->
   ~ has_substring "://" spec ->
   regular_file w (local_path c pkg spec) ->
   exists p lg, Patch_new c pkg spec lvl w = (Return p, lg)
                /\ level p = lvl
                /\ path p = Some (local_path c pkg spec))
  /\ (~ nonneg_integer lvl ->
      Patch_new c pkg spec lvl w = (Raise level_error, [])).
Proof.
  split.
  - intros Hl Hs Hf. do 2 eexists. split.
    + apply new_local_found; assumption.
    + split; reflexivity.
  - apply new_bad_level.
Qed.

Lemma not_nonneg_minus_one : ~ nonneg_integer (PyInt (-1)).
Proof. intros H. inversion H. lia. Defined.

Lemma not_nonneg_float : ~ nonneg_integer (PyFloat "1.0").
Proof. intros H. inversion H. Defined.

Lemma fix_build_is_local : ~ has_substring "://" "fix-build.patch".
Proof. apply contains_false_iff. reflexivity. Defined.

Lemma new_validates_level_witness :
  (exists p lg,
      Patch_new (Scenario.env Scenario.tool_ok) Scenario.foo "fix-build.patch"
                (PyInt 1) Scenario.w0 = (Return p, lg)
      /\ level p = PyInt 1
      /\ path p
         = Some (local_path (Scenario.env Scenario.tool_ok) Scenario.foo
                            "fix-build.patch"))
  /\ Patch_new (Scenario.env Scenario.tool_ok) Scenario.foo "fix-build.patch"
               (PyInt (-1)) Scenario.w0 = (Raise level_error, [])
  /\ Patch_new (Scenario.env Scenario.tool_ok) Scenario.foo "fix-build.patch"
               (PyFloat "1.0") Scenario.w0 = (Raise level_error, []).
Proof.
  split; [|split].
  - apply (proj1 (new_validates_level
                    (Scenario.env Scenario.tool_ok) Scenario.foo
                    "fix-build.patch" (PyInt 1) Scenario.w0)).
    + constructor. lia.
    + exact fix_build_is_local.
    + exists Scenario.diff, true. reflexivity.
  - apply (proj2 (new_validates_level
                    (Scenario.env Scenario.tool_ok) Scenario.foo
                    "fix-build.patch" (PyInt (-1)) Scenario.w0)).
    exact not_nonneg_minus_one.
  - apply (proj2 (new_validates_level
                    (Scenario.env Scenario.tool_ok) Scenario.foo
                    "fix-build.patch" (PyFloat "1.0") Scenario.w0)).
    exact not_nonneg_float.
Defined.

(* ===================================================================== *)
(** ** Acquisition, fingerprint and application *)
(* ===================================================================== *)

Lemma get_patch_local c p :
  truthy (url p) = false -> Patch_get_patch c p = get_file (path p).
Proof. unfold Patch_get_patch. intros ->. reflexivity. Qed.

Lemma get_patch_remote c p :
  truthy (url p) = true -> Patch_get_patch c p = get_url c (url p).
Proof. unfold Patch_get_patch. intros ->. reflexivity. Qed.

(** Entering [get_url] fails on its first name, whatever the body of the
    [with] block is; the body does not run and no stage is created. *)
Lemma get_url_raises c u B (body : option string -> M B) st :
  get_url c u B body st = (Raise (NameError "self"), st).
Proof. destruct u; reflexivity. Qed.

Lemma file_hash_cached c st :
  truthy (_file_hash (this st)) = true ->
  Patch_file_hash c st = (Return (_file_hash (this st)), st).
Proof.
  intros H. unfold Patch_file_hash, bind, self, ret. rewrite H. reflexivity.
Qed.

Lemma file_hash_local_uncached c p w lg f B :
  over_file p w f B -> truthy (_file_hash p) = false ->
  Patch_file_hash c (mkState p w lg)
  = (Return (Some (fingerprint B)),
     mkState (set_file_hash (Some (fingerprint B)) p) w (lg ++ [EvOpenRead f])).
Proof.
  intros (Hu & Hp & Hf) Hc.
  unfold Patch_file_hash, bind, self, ret. cbn [this].
  rewrite Hc, (get_patch_local c p Hu), Hp. cbn [negb].
  unfold get_file, file_hash, open_read, on_world, read_bytes, bind, emit,
    update, ret.
  cbn [this world log]. rewrite Hf. reflexivity.
Qed.

Lemma file_hash_remote_uncached c p w lg :
  truthy (url p) = true -> truthy (_file_hash p) = false ->
  Patch_file_hash c (mkState p w lg)
  = (Raise (NameError "self"), mkState p w lg).
Proof.
  intros Hu Hc.
  unfold Patch_file_hash, bind, self. cbn [this].
  rewrite Hc, (get_patch_remote c p Hu). cbn [negb].
  rewrite get_url_raises. reflexivity.
Qed.

Lemma file_hash_calls_cached c n st :
  truthy (_file_hash (this st)) = true ->
  file_hash_calls c n st = (repeat (Return (_file_hash (this st))) n, st).
Proof.
  intros H. induction n as [|n IH]; cbn [file_hash_calls repeat].
  - reflexivity.
  - rewrite (file_hash_cached c st H), IH. reflexivity.
Qed.

(** A read of [file_hash] that returns leaves a cache that is true in a
    condition, and returns what it leaves there. *)
Lemma file_hash_returns_cache c st r st1 :
  Patch_file_hash c st = (Return r, st1) ->
  truthy (_file_hash (this st1)) = true /\ r = _file_hash (this st1).
Proof.
  destruct st as [p w lg]. intros H.
  destruct (truthy (_file_hash p)) eqn:Hc.
  - rewrite file_hash_cached in H by exact Hc.
    injection H as <- <-. cbn [this]. auto.
  - destruct (truthy (url p)) eqn:Hu.
    + rewrite file_hash_remote_uncached in H by assumption. discriminate.
    + destruct (path p) as [f|] eqn:Hp.
      * destruct (files w f) as [[B [|]|]|] eqn:Hf.
        -- rewrite (file_hash_local_uncached c p w lg f B) in H
             by (repeat split; assumption).
           injection H as <- <-. cbn [this _file_hash set_file_hash].
           split; [apply fingerprint_truthy | reflexivity].
        -- revert H. unfold Patch_file_hash, bind, self. cbn [this].
           rewrite Hc, (get_patch_local c p Hu), Hp. cbn [negb].
           unfold get_file, file_hash, open_read, on_world, read_bytes,
             bind, emit. cbn [this world log]. rewrite Hf. discriminate.
        -- revert H. unfold Patch_file_hash, bind, self. cbn [this].
           rewrite Hc, (get_patch_local c p Hu), Hp. cbn [negb].
           unfold get_file, file_hash, open_read, on_world, read_bytes,
             bind, emit. cbn [this world log]. rewrite Hf. discriminate.
        -- revert H. unfold Patch_file_hash, bind, self. cbn [this].
           rewrite Hc, (get_patch_local c p Hu), Hp. cbn [negb].
           unfold get_file, file_hash, open_read, on_world, read_bytes,
             bind, emit. cbn [this world log]. rewrite Hf. discriminate.
      * revert H. unfold Patch_file_hash, bind, self. cbn [this].
        rewrite Hc, (get_patch_local c p Hu), Hp. cbn [negb].
        unfold get_file, file_hash, open_read, bind, raise. discriminate.
Qed.

(** Where the cache comes from: it is empty after construction, and a
    read of [file_hash] over a file with bytes [B] keeps it in agreement
    with [B]. *)
Lemma new_cache_empty c pkg spec lvl w p lg :
  Patch_new c pkg spec lvl w = (Return p, lg) -> _file_hash p = None.
Proof.
  intros Hnew.
  destruct (negb (isinstance_int lvl) || negb (0 <=? int_value lvl)) eqn:Hl.
  { apply level_test_true_iff in Hl.
    rewrite (new_bad_level c pkg spec lvl w Hl) in Hnew. discriminate. }
  apply level_test_false_iff in Hl.
  destruct (Str.contains "://" spec) eqn:Hs.
  - apply contains_true_iff in Hs.
    rewrite (new_remote c pkg spec lvl w Hl Hs) in Hnew.
    injection Hnew as <- <-. reflexivity.
  - apply contains_false_iff in Hs.
    destruct (isfile w (local_path c pkg spec)) eqn:Hf.
    + apply isfile_true_iff in Hf.
      rewrite (new_local_found c pkg spec lvl w Hl Hs Hf) in Hnew.
      injection Hnew as <- <-. reflexivity.
    + assert (Hnf : ~ regular_file w (local_path c pkg spec)).
      { rewrite <- isfile_true_iff. congruence. }
      rewrite (new_local_missing c pkg spec lvl w Hl Hs Hnf) in Hnew.
      discriminate.
Qed.

Lemma file_hash_keeps_cache_agreement c p w lg f B :
  over_file p w f B -> cache_agrees p B ->
  cache_agrees (this (snd (Patch_file_hash c (mkState p w lg)))) B.
Proof.
  intros Hover [Hc|Hc].
  - rewrite (file_hash_local_uncached c p w lg f B Hover Hc).
    right. reflexivity.
  - rewrite file_hash_cached.
    + right. exact Hc.
    + cbn [this]. rewrite Hc. apply fingerprint_truthy.
Qed.


(** C10.  Once a read of [file_hash] has returned, every further read
    returns the same value and leaves the instance, the world and the log
    as they are: nothing is acquired and no byte is read again. *)
Theorem file_hash_is_cached c st r st1 n :
  Patch_file_hash c st = (Return r, st1) ->
  file_hash_calls c n st1 = (repeat (Return r) n, st1).
Proof.
  intros H. apply file_hash_returns_cache in H as [Ht ->].
  apply file_hash_calls_cached. exact Ht.
Qed.



Lemma file_hash_is_cached_witness :
  file_hash_calls (Scenario.env Scenario.tool_ok) 3
    (mkState (set_file_hash (Some "mrjqj7j4rrvfww5u7w4v27ccue======")
                            Scenario.patchA)
             Scenario.w0 [EvOpenRead Scenario.fix_build])
  = (repeat (Return (Some "mrjqj7j4rrvfww5u7w4v27ccue======")) 3,
     mkState (set_file_hash (Some "mrjqj7j4rrvfww5u7w4v27ccue======")
                            Scenario.patchA)
             Scenario.w0 [EvOpenRead Scenario.fix_build]).
Proof.
  apply (file_hash_is_cached
           (Scenario.env Scenario.tool_ok)
           (mkState Scenario.patchA Scenario.w0 [])).
  vm_compute. reflexivity.
Defined.

(** *** [apply] *)

Lemma apply_chdir_raises c stage p w lg e w1 :
  chdir_to_source stage w = (Raise e, w1) ->
  Patch_apply c stage (mkState p w lg)
  = (Raise e, mkState p w1 (lg ++ [EvChdirToSource])).
Proof.
  intros H. unfold Patch_apply, bind, emit, on_world. cbn [this world log].
  rewrite H. reflexivity.
Qed.

Lemma apply_remote c stage p w lg w1 :
  chdir_to_source stage w = (Return tt, w1) ->
  truthy (url p) = true ->
  Patch_apply c stage (mkState p w lg)
  = (Raise (NameError "self"), mkState p w1 (lg ++ [EvChdirToSource])).
Proof.
  intros H Hu.
  unfold Patch_apply, bind, emit, on_world, self. cbn [this world log].
  rewrite H. cbn [this world log].
  rewrite (get_patch_remote c p Hu), get_url_raises. reflexivity.
Qed.

Lemma apply_local c stage p w lg w1 f B :
  chdir_to_source stage w = (Return tt, w1) ->
  over_file p w1 f B ->
  Patch_apply c stage (mkState p w lg)
  = (fst (_patch c (patch_args p f) w1),
     mkState (set_file_hash (Some (fingerprint B)) p)
             (snd (_patch c (patch_args p f) w1))
             (lg ++ [EvChdirToSource; EvOpenRead f;
                     EvExec (patch_args p f)])).
Proof.
  intros H (Hu & Hp & Hf).
  unfold Patch_apply, bind, emit, on_world, self. cbn [this world log].
  rewrite H. cbn [this world log]. rewrite (get_patch_local c p Hu), Hp.
  unfold get_file, file_hash, open_read, call_patch, on_world, read_bytes,
    bind, emit, update, self, ret.
  cbn [this world log]. rewrite Hf. cbn [this world log level set_file_hash].
  unfold patch_args.
  destruct (_patch c ["-s"; "-p"; str (level p); "-i"; f] w1) as [r w2].
  cbn [fst snd]. rewrite <- !app_assoc. reflexivity.
Qed.

(** Whatever happens, the log of [apply] is one of three: the call of
    [chdir_to_source] alone; that and the read of the patch file; or
    those two and one run of the tool. *)
Lemma apply_log_cases c stage p w lg :
  let l := log (snd (Patch_apply c stage (mkState p w lg))) in
  l = lg ++ [EvChdirToSource]
  \/ (exists f, path p = Some f /\ l = lg ++ [EvChdirToSource; EvOpenRead f])
  \/ (exists f, path p = Some f
                /\ l = lg ++ [EvChdirToSource; EvOpenRead f;
                              EvExec (patch_args p f)]).
Proof.
  cbv zeta.
  destruct (chdir_to_source stage w) as [[[]|e] w1] eqn:H.
  - destruct (truthy (url p)) eqn:Hu.
    + rewrite (apply_remote c stage p w lg w1 H Hu). left. reflexivity.
    + unfold Patch_apply, bind, emit, on_world, self.
      cbn [this world log]. rewrite H. cbn [this world log].
      rewrite (get_patch_local c p Hu).
      unfold get_file, file_hash, open_read, call_patch, on_world,
        read_bytes, bind, emit, update, self, ret, raise.
      destruct (path p) as [f|]; cbn [this world log].
      * destruct (files w1 f) as [[B [|]|]|]; cbn [this world log];
          try (right; left; exists f; split; [reflexivity|];
               cbn [snd log]; rewrite <- !app_assoc; reflexivity).
        destruct (_patch c _ w1) as [r w2]. cbn [snd log].
        right; right. exists f. split; [reflexivity|].
        rewrite <- !app_assoc. reflexivity.
      * left. reflexivity.
  - rewrite (apply_chdir_raises c stage p w lg e w1 H). left. reflexivity.
Qed.

(** For a local patch whose file can be read, once [chdir_to_source] has
    returned, [apply] runs the patch tool exactly once, with the arguments
    [-s], [-p], the strip level of the patch, [-i] and the path of the
    file; and no call of [apply], for whatever patch and whatever becomes
    of it, runs the tool more than once. *)
Theorem apply_invokes_tool_once c stage p w :
  (forall w1 f B,
      chdir_to_source stage w = (Return tt, w1) ->
      over_file p w1 f B ->
      execs (log (snd (Patch_apply c stage (mkState p w []))))
      = [["-s"; "-p"; str (level p); "-i"; f]])
  /\ (List.length (execs (log (snd (Patch_apply c stage (mkState p w [])))))
      <= 1)%nat.
Proof.
  split.
  - intros w1 f B H Hover.
    rewrite (apply_local c stage p w [] w1 f B H Hover). reflexivity.
  - destruct (apply_log_cases c stage p w [])
      as [-> | [(f & _ & ->) | (f & _ & ->)]]; cbn; lia.
Qed.

Lemma apply_invokes_tool_once_witness :
  execs (log (snd (Patch_apply (Scenario.env Scenario.tool_ok) Scenario.stage
                               (mkState Scenario.patchA Scenario.w0 []))))
  = [["-s"; "-p"; "1"; "-i"; Scenario.fix_build]].
Proof.
  apply (proj1 (apply_invokes_tool_once
                  (Scenario.env Scenario.tool_ok) Scenario.stage
                  Scenario.patchA Scenario.w0)
           (mkWorld Scenario.disk "/stage/foo/src")
           Scenario.fix_build Scenario.diff).
  - reflexivity.
  - repeat split.
Defined.

(** C6.  Every patch should have the tool run exactly once by [apply],
    with [-s], [-p <level>] and [-i <file>].  For the remote patch of
    scenario B, [Patch(bar, "https://example.org/p.patch", 0)], whose
    construction succeeds, [apply] runs the tool not once but never: it
    raises [NameError] on entering [get_url], before the call of [_patch]
    is reached.  (For a local patch over a readable file the tool is run
    as described.) *)
Theorem remote_patch_apply_never_runs_tool :
  Patch_new (Scenario.env Scenario.tool_ok) Scenario.bar
            "https://example.org/p.patch" (PyInt 0) Scenario.w0
  = (Return Scenario.patchB, [])
  /\ fst (Patch_apply (Scenario.env Scenario.tool_ok) Scenario.stage
                      (mkState Scenario.patchB Scenario.w0 []))
     = Raise (NameError "self")
  /\ execs (log (snd (Patch_apply (Scenario.env Scenario.tool_ok)
                                  Scenario.stage
                                  (mkState Scenario.patchB Scenario.w0 []))))
     = [].
Proof. repeat split. Qed.

(** C7.  The comment above the call in [apply] announces [-N], the flag
    that makes the tool skip a patch that is already applied; the call
    itself does not pass it.  In scenario A the tool is run with [-s],
    [-p 1] and [-i], and [-N] is not among its arguments. *)
Theorem apply_does_not_pass_N :
  execs (log (snd (Patch_apply (Scenario.env Scenario.tool_ok) Scenario.stage
                               (mkState Scenario.patchA Scenario.w0 []))))
  = [["-s"; "-p"; "1"; "-i"; Scenario.fix_build]]
  /\ ~ In "-N" ["-s"; "-p"; "1"; "-i"; Scenario.fix_build].
Proof.
  split; [reflexivity|].
  cbn [In]. intros [H|[H|[H|[H|[H|[]]]]]]; discriminate.
Qed.

(** C8, as the specification states it, at the patch
    [Patch(foo, "/tmp/fix.patch", 1)] and a tool that exits with status 1:
    the exception that leaves [apply] is the one the process wrapper
    raised; it names neither the package nor anything else [apply] knows
    beyond the command line. *)
Lemma tool_error_does_not_carry_package :
  ~ (forall e,
        fst (Patch_apply (Scenario.env Scenario.tool_fails) Scenario.stage
                         (mkState Scenario.patchT Scenario.w_tmp []))
        = Raise e ->
        carries e (pkg_name Scenario.patchT)
        /\ carries e (path_or_url Scenario.patchT)
        /\ carries e (str (level Scenario.patchT))).
Proof.
  intros H.
  destruct (H (Foreign "ProcessError"
                 "Command exited with status 1: /usr/bin/patch -s -p 1 -i /tmp/fix.patch")
              eq_refl) as [Hpkg _].
  vm_compute in Hpkg. discriminate.
Qed.

(** C8, amended.  When the call of the patch tool raises, [apply] raises
    that very exception: it is not wrapped and nothing is added to it.  The
    tool has been run once and is not run again; the fingerprint computed
    before the call stays in the cache. *)
Theorem apply_propagates_tool_error c stage p w w1 w2 f B e :
  chdir_to_source stage w = (Return tt, w1) ->
  over_file p w1 f B ->
  _patch c ["-s"; "-p"; str (level p); "-i"; f] w1 = (Raise e, w2) ->
  Patch_apply c stage (mkState p w [])
  = (Raise e,
     mkState (set_file_hash (Some (fingerprint B)) p) w2
             [EvChdirToSource; EvOpenRead f;
              EvExec ["-s"; "-p"; str (level p); "-i"; f]]).
Proof.
  intros H Hover Htool.
  rewrite (apply_local c stage p w [] w1 f B H Hover).
  unfold patch_args. rewrite Htool. reflexivity.
Qed.

Lemma apply_propagates_tool_error_witness :
  Patch_apply (Scenario.env Scenario.tool_fails) Scenario.stage
              (mkState Scenario.patchA Scenario.w0 [])
  = (Raise (Foreign "ProcessError"
              ("Command exited with status 1: /usr/bin/patch -s -p 1 -i "
                 ++ Scenario.fix_build)),
     mkState (set_file_hash (Some (fingerprint Scenario.diff)) Scenario.patchA)
             (mkWorld Scenario.disk "/stage/foo/src")
             [EvChdirToSource; EvOpenRead Scenario.fix_build;
              EvExec ["-s"; "-p"; "1"; "-i"; Scenario.fix_build]]).
Proof.
  apply (apply_propagates_tool_error
           (Scenario.env Scenario.tool_fails) Scenario.stage Scenario.patchA
           Scenario.w0 (mkWorld Scenario.disk "/stage/foo/src")
           (mkWorld Scenario.disk "/stage/foo/src")
           Scenario.fix_build Scenario.diff).
  - reflexivity.
  - repeat split.
  - reflexivity.
Defined.

(** C9, as the specification states it, in scenario A: the process is in
    [/home/user] when [apply] is called and in the source directory of the
    stage when it returns; [apply] has called [stage.chdir_to_source()]
    once. *)
Lemma apply_changes_working_directory :
  let st' := snd (Patch_apply (Scenario.env Scenario.tool_ok) Scenario.stage
                              (mkState Scenario.patchA Scenario.w0 [])) in
  chdirs (log st') = 1%nat /\ cwd (world st') <> cwd Scenario.w0.
Proof. split; [reflexivity | discriminate]. Qed.

(** C9, amended.  [apply] itself positions the process: it calls
    [stage.chdir_to_source()] exactly once, before anything else it does.
    If that call raises, [apply] raises the same exception and does
    nothing else.  If it returns, everything else [apply] does happens in
    the world that call has left, exactly as if [apply] had been entered
    there with the directory already in place. *)
Theorem apply_positions_directory_first c stage p w lg :
  (exists rest,
      log (snd (Patch_apply c stage (mkState p w lg)))
      = lg ++ EvChdirToSource :: rest
      /\ chdirs rest = 0%nat)
  /\ (forall e w1,
         chdir_to_source stage w = (Raise e, w1) ->
         Patch_apply c stage (mkState p w lg)
         = (Raise e, mkState p w1 (lg ++ [EvChdirToSource])))
  /\ (forall w1,
         chdir_to_source stage w = (Return tt, w1) ->
         Patch_apply c stage (mkState p w lg)
         = Patch_apply c already_in_place (mkState p w1 lg)).
Proof.
  split; [|split].
  - destruct (apply_log_cases c stage p w lg)
      as [-> | [(f & _ & ->) | (f & _ & ->)]]; eexists;
      (split; [reflexivity | reflexivity]).
  - intros e w1 H. apply apply_chdir_raises. exact H.
  - intros w1 H.
    unfold Patch_apply, already_in_place, bind, emit, on_world.
    cbn [this world log chdir_to_source]. rewrite H. reflexivity.
Qed.

Lemma apply_positions_directory_first_witness :
  Patch_apply (Scenario.env Scenario.tool_ok) Scenario.stage
              (mkState Scenario.patchA Scenario.w0 [])
  = Patch_apply (Scenario.env Scenario.tool_ok) already_in_place
                (mkState Scenario.patchA
                         (mkWorld Scenario.disk "/stage/foo/src") [])
  /\ Patch_apply (Scenario.env Scenario.tool_ok) Scenario.stage_unexpanded
                 (mkState Scenario.patchA Scenario.w0 [])
     = (Raise (Foreign "SystemExit"
                 "Attempt to chdir before expanding archive."),
        mkState Scenario.patchA Scenario.w0 [EvChdirToSource]).
Proof.
  split.
  - apply (proj2 (proj2 (apply_positions_directory_first
                           (Scenario.env Scenario.tool_ok) Scenario.stage
                           Scenario.patchA Scenario.w0 []))
             (mkWorld Scenario.disk "/stage/foo/src")).
    reflexivity.
  - apply (proj1 (proj2 (apply_positions_directory_first
                           (Scenario.env Scenario.tool_ok)
                           Scenario.stage_unexpanded
                           Scenario.patchA Scenario.w0 []))
             (Foreign "SystemExit"
                "Attempt to chdir before expanding archive.")
             Scenario.w0).
    reflexivity.
Defined.

(** C2.  Scenario B of the specification: constructing the remote patch
    touches nothing, but [apply] cannot fetch it.  Entering [get_url]
    evaluates [self.url] where only [url] is bound, so [apply] raises
    [NameError] right after [chdir_to_source]: there is no fetch, no stage
    to release and no run of the patch tool.  Reading [file_hash] fails the
    same way. *)
Theorem remote_patch_apply_raises_NameError :
  Patch_new (Scenario.env Scenario.tool_ok) Scenario.bar
            "https://example.org/p.patch" (PyInt 0) Scenario.w0
  = (Return Scenario.patchB, [])
  /\ (let r := Patch_apply (Scenario.env Scenario.tool_ok) Scenario.stage
                           (mkState Scenario.patchB Scenario.w0 []) in
      fst r = Raise (NameError "self")
      /\ log (snd r) = [EvChdirToSource]
      /\ fetches (log (snd r)) = []
      /\ execs (log (snd r)) = [])
  /\ Patch_file_hash (Scenario.env Scenario.tool_ok)
                     (mkState Scenario.patchB Scenario.w0 [])
     = (Raise (NameError "self"), mkState Scenario.patchB Scenario.w0 []).
Proof. repeat split. Qed.

Lemma new_sets_local_path c pkg spec lvl w p lg :
  Patch_new c pkg spec lvl w = (Return p, lg) ->
  ~ has_substring "://" spec ->
  url p = None /\ path p = Some (local_path c pkg spec).
Proof.
  intros Hnew Hs.
  destruct (negb (isinstance_int lvl) || negb (0 <=? int_value lvl)) eqn:Hl.
  { apply level_test_true_iff in Hl.
    rewrite (new_bad_level c pkg spec lvl w Hl) in Hnew. discriminate. }
  apply level_test_false_iff in Hl.
  destruct (isfile w (local_path c pkg spec)) eqn:Hf.
  - apply isfile_true_iff in Hf.
    rewrite (new_local_found c pkg spec lvl w Hl Hs Hf) in Hnew.
    injection Hnew as <- <-. auto.
  - assert (Hnf : ~ regular_file w (local_path c pkg spec)).
    { rewrite <- isfile_true_iff. congruence. }
    rewrite (new_local_missing c pkg spec lvl w Hl Hs Hnf) in Hnew.
    discriminate.
Qed.

(* ===================================================================== *)
(** ** Further properties of [apply] and [file_hash] *)
(* ===================================================================== *)

(** Unfolding the monad and the small steps of [patch.py]. *)
Ltac run_patch_py :=
  unfold Patch_apply, Patch_file_hash, get_file, file_hash, open_read,
    call_patch, on_world, bind, emit, update, self, ret, raise;
  cbn [this world log url path level _file_hash set_file_hash negb].

Lemma unreadable_read w f :
  unreadable w f -> read_bytes w f = Raise (IOError f).
Proof.
  unfold unreadable, read_bytes. intros H.
  destruct (files w f) as [[B [|]|]|] eqn:Hf; try reflexivity.
  exfalso. exact (H B eq_refl).
Qed.

(** [apply] computes the fingerprint anew from the file it has acquired,
    whatever the cache held before and whatever becomes of the run of the
    tool; a read of [file_hash] afterwards returns that fingerprint and
    touches nothing, also when the tool has changed the files. *)
Theorem apply_refreshes_fingerprint c stage p w lg w1 f B :
  chdir_to_source stage w = (Return tt, w1) ->
  over_file p w1 f B ->
  _file_hash (this (snd (Patch_apply c stage (mkState p w lg))))
  = Some (fingerprint B)
  /\ Patch_file_hash c (snd (Patch_apply c stage (mkState p w lg)))
     = (Return (Some (fingerprint B)),
        snd (Patch_apply c stage (mkState p w lg))).
Proof.
  intros H Hover. rewrite (apply_local c stage p w lg w1 f B H Hover).
  cbn [snd this _file_hash set_file_hash]. split; [reflexivity|].
  rewrite file_hash_cached; cbn [this _file_hash set_file_hash].
  - reflexivity.
  - apply fingerprint_truthy.
Qed.

Lemma apply_refreshes_fingerprint_witness :
  _file_hash
    (this (snd (Patch_apply (Scenario.env Scenario.tool_fails)
                            Scenario.stage
                            (mkState (set_file_hash (Some "stale")
                                                    Scenario.patchA)
                                     Scenario.w0 []))))
  = Some (fingerprint Scenario.diff).
Proof.
  apply (apply_refreshes_fingerprint
           (Scenario.env Scenario.tool_fails) Scenario.stage
           (set_file_hash (Some "stale") Scenario.patchA) Scenario.w0 []
           (mkWorld Scenario.disk "/stage/foo/src")
           Scenario.fix_build Scenario.diff).
  - reflexivity.
  - repeat split.
Defined.

(** When the file of a local patch cannot be read at the time of [apply]
    (it was there when the patch was constructed), [apply] raises the
    [IOError] of [open] after [chdir_to_source]: the tool is not run and
    the instance is left as it was. *)
Theorem apply_unreadable_file c stage p w lg w1 f :
  chdir_to_source stage w = (Return tt, w1) ->
  truthy (url p) = false -> path p = Some f ->
  unreadable w1 f ->
  Patch_apply c stage (mkState p w lg)
  = (Raise (IOError f),
     mkState p w1 (lg ++ [EvChdirToSource; EvOpenRead f])).
Proof.
  intros H Hu Hp Hf. apply unreadable_read in Hf.
  unfold Patch_apply, bind, emit, on_world, self. cbn [this world log].
  rewrite H. cbn [this world log]. rewrite (get_patch_local c p Hu), Hp.
  run_patch_py. rewrite Hf. rewrite <- !app_assoc. reflexivity.
Qed.

Lemma apply_unreadable_file_witness :
  Patch_apply (Scenario.env Scenario.tool_ok) Scenario.stage
              (mkState Scenario.patchA Scenario.w_gone [])
  = (Raise (IOError Scenario.fix_build),
     mkState Scenario.patchA (mkWorld (fun _ => None) "/stage/foo/src")
             [EvChdirToSource; EvOpenRead Scenario.fix_build]).
Proof.
  apply (apply_unreadable_file
           (Scenario.env Scenario.tool_ok) Scenario.stage Scenario.patchA
           Scenario.w_gone []).
  - reflexivity.
  - reflexivity.
  - reflexivity.
  - intros B. discriminate.
Defined.

Lemma file_hash_local_unreadable c p w lg f :
  truthy (_file_hash p) = false ->
  truthy (url p) = false -> path p = Some f ->
  unreadable w f ->
  Patch_file_hash c (mkState p w lg)
  = (Raise (IOError f), mkState p w (lg ++ [EvOpenRead f])).
Proof.
  intros Hc Hu Hp Hf. apply unreadable_read in Hf.
  unfold Patch_file_hash, bind, self. cbn [this].
  rewrite Hc, (get_patch_local c p Hu), Hp. run_patch_py.
  rewrite Hf. reflexivity.
Qed.

(** A read of [file_hash] that fails is not remembered: the [IOError]
    leaves the instance without a fingerprint, and a later read, once the
    file can be read, opens it again and returns its fingerprint. *)
Theorem file_hash_failure_not_cached c p w lg f :
  truthy (_file_hash p) = false ->
  truthy (url p) = false -> path p = Some f ->
  unreadable w f ->
  Patch_file_hash c (mkState p w lg)
  = (Raise (IOError f), mkState p w (lg ++ [EvOpenRead f]))
  /\ forall w' B,
       files w' f = Some (File B true) ->
       Patch_file_hash c (mkState p w' (lg ++ [EvOpenRead f]))
       = (Return (Some (fingerprint B)),
          mkState (set_file_hash (Some (fingerprint B)) p) w'
                  (lg ++ [EvOpenRead f; EvOpenRead f])).
Proof.
  intros Hc Hu Hp Hf. split.
  - apply file_hash_local_unreadable; assumption.
  - intros w' B Hf'.
    rewrite (file_hash_local_uncached c p w' (lg ++ [EvOpenRead f]) f B)
      by (repeat split; assumption).
    rewrite <- app_assoc. reflexivity.
Qed.

Lemma file_hash_failure_not_cached_witness :
  Patch_file_hash (Scenario.env Scenario.tool_ok)
                  (mkState Scenario.patchA Scenario.w_locked [])
  = (Raise (IOError Scenario.fix_build),
     mkState Scenario.patchA Scenario.w_locked
             [EvOpenRead Scenario.fix_build]).
Proof.
  apply (file_hash_failure_not_cached
           (Scenario.env Scenario.tool_ok) Scenario.patchA
           Scenario.w_locked [] Scenario.fix_build).
  - reflexivity.
  - reflexivity.
  - reflexivity.
  - intros B. discriminate.
Defined.

(** Reading [file_hash] is read-only: it never changes a file or the
    working directory, never calls [chdir_to_source], never runs the patch
    tool, and changes nothing of the instance but its cache. *)
Theorem file_hash_is_read_only c st :
  let st' := snd (Patch_file_hash c st) in
  world st' = world st
  /\ execs (log st') = execs (log st)
  /\ chdirs (log st') = chdirs (log st)
  /\ this st' = set_file_hash (_file_hash (this st')) (this st).
Proof.
  destruct st as [p w lg]. cbv zeta.
  assert (Hp : p = set_file_hash (_file_hash p) p) by (destruct p; reflexivity).
  destruct (truthy (_file_hash p)) eqn:Hc.
  - rewrite file_hash_cached by exact Hc. cbn [snd this world log]. auto.
  - destruct (truthy (url p)) eqn:Hu.
    + rewrite file_hash_remote_uncached by assumption.
      cbn [snd this world log]. auto.
    + unfold Patch_file_hash, bind, self. cbn [this].
      rewrite Hc, (get_patch_local c p Hu). run_patch_py.
      unfold read_bytes.
      destruct (path p) as [f|]; cbn [this world log snd].
      * destruct (files w f) as [[B [|]|]|];
          cbn [snd this world log _file_hash set_file_hash];
          unfold execs, chdirs; rewrite ?flat_map_app, ?filter_app;
          cbn; rewrite ?app_nil_r; auto.
      * auto.
Qed.

(** [apply] never looks at the cached fingerprint: with any other value in
    the cache it raises or returns the same, leaves the same world and does
    the same things in the same order. *)
Theorem apply_ignores_cache c stage p w lg h :
  let r1 := Patch_apply c stage (mkState p w lg) in
  let r2 := Patch_apply c stage (mkState (set_file_hash h p) w lg) in
  fst r2 = fst r1
  /\ world (snd r2) = world (snd r1)
  /\ log (snd r2) = log (snd r1).
Proof.
  cbv zeta.
  destruct (chdir_to_source stage w) as [[[]|e] w1] eqn:H.
  - destruct (truthy (url p)) eqn:Hu.
    + rewrite !(apply_remote c stage _ w lg w1 H) by exact Hu. auto.
    + unfold Patch_apply, bind, emit, on_world, self.
      cbn [this world log]. rewrite H. cbn [this world log].
      rewrite !get_patch_local by exact Hu. run_patch_py.
      unfold read_bytes.
      destruct (path p) as [f|]; cbn [this world log fst snd].
      * destruct (files w1 f) as [[B [|]|]|];
          cbn [this world log fst snd level]; auto.
      * auto.
  - rewrite !(apply_chdir_raises c stage _ w lg e w1 H). auto.
Qed.

(** Construction and first read together: a patch constructed from a local
    specifier in a world where its file can be read has, in that world,
    the fingerprint of the bytes of the file at the resolved path, and the
    read opens that file once. *)
Theorem new_then_file_hash c pkg spec lvl w p lg B :
  Patch_new c pkg spec lvl w = (Return p, lg) ->
  ~ has_substring "://" spec ->
  files w (local_path c pkg spec) = Some (File B true) ->
  Patch_file_hash c (mkState p w [])
  = (Return (Some (fingerprint B)),
     mkState (set_file_hash (Some (fingerprint B)) p) w
             [EvOpenRead (local_path c pkg spec)]).
Proof.
  intros Hnew Hs Hf.
  pose proof (new_cache_empty c pkg spec lvl w p lg Hnew) as Hc.
  destruct (new_sets_local_path c pkg spec lvl w p lg Hnew Hs) as [Hu Hp].
  apply (file_hash_local_uncached c p w [] (local_path c pkg spec) B).
  - repeat split; [rewrite Hu; reflexivity | exact Hp | exact Hf].
  - rewrite Hc. reflexivity.
Qed.

Lemma new_then_file_hash_witness :
  Patch_file_hash (Scenario.env Scenario.tool_ok)
                  (mkState Scenario.patchA Scenario.w0 [])
  = (Return (Some (fingerprint Scenario.diff)),
     mkState (set_file_hash (Some (fingerprint Scenario.diff))
                            Scenario.patchA)
             Scenario.w0
             [EvOpenRead (local_path (Scenario.env Scenario.tool_ok)
                                     Scenario.foo "fix-build.patch")]).
Proof.
  apply (new_then_file_hash
           (Scenario.env Scenario.tool_ok) Scenario.foo "fix-build.patch"
           (PyInt 1) Scenario.w0 Scenario.patchA
           [EvDirname "foo"; EvIsfile Scenario.fix_build] Scenario.diff).
  - reflexivity.
  - apply contains_false_iff. reflexivity.
  - reflexivity.
Defined.

(** The constructor tests that the file exists, not that it can be read:
    a patch over a regular file the process may not read is constructed,
    and its first read of [file_hash] raises [IOError]. *)
Theorem new_accepts_unreadable_file c pkg spec lvl w B :
  nonneg_integer lvl ->
  ~ has_substring "://" spec ->
  files w (local_path c pkg spec) = Some (File B false) ->
  exists p lg,
    Patch_new c pkg spec lvl w = (Return p, lg)
    /\ Patch_file_hash c (mkState p w [])
       = (Raise (IOError (local_path c pkg spec)),
          mkState p w [EvOpenRead (local_path c pkg spec)]).
Proof.
  intros Hl Hs Hf. do 2 eexists. split.
  - apply new_local_found; [assumption | assumption |].
    exists B, false. exact Hf.
  - apply (file_hash_local_unreadable c _ w [] (local_path c pkg spec));
      try reflexivity.
    intros B' HB'. rewrite Hf in HB'. discriminate.
Qed.

Lemma new_accepts_unreadable_file_witness :
  exists p lg,
    Patch_new (Scenario.env Scenario.tool_ok) Scenario.foo "fix-build.patch"
              (PyInt 1) Scenario.w_locked = (Return p, lg)
    /\ Patch_file_hash (Scenario.env Scenario.tool_ok)
                       (mkState p Scenario.w_locked [])
       = (Raise (IOError (local_path (Scenario.env Scenario.tool_ok)
                                     Scenario.foo "fix-build.patch")),
          mkState p Scenario.w_locked
                  [EvOpenRead (local_path (Scenario.env Scenario.tool_ok)
                                          Scenario.foo "fix-build.patch")]).
Proof.
  apply (new_accepts_unreadable_file
           (Scenario.env Scenario.tool_ok) Scenario.foo "fix-build.patch"
           (PyInt 1) Scenario.w_locked Scenario.diff).
  - constructor. lia.
  - apply contains_false_iff. reflexivity.
  - reflexivity.
Defined.

(** The strip level reaches the tool as it was given: the third argument
    of the run is the decimal text of the level and denotes that integer
    again. *)
Lemma str_int_round_trip (z : Z) : parse_int (str (PyInt z)) = Some z.
Proof.
  unfold parse_int, str. rewrite NilZero.isi.
  - cbn [option_map]. rewrite DecimalZ.of_to. reflexivity.
  - destruct z; cbn; try discriminate.
    intros [= H]. exact (Unsigned.to_uint_nonnil _ H).
  - destruct z; cbn; try discriminate.
    intros [= H]. exact (Unsigned.to_uint_nonnil _ H).
Qed.

Theorem strip_argument_round_trip c stage p w w1 f B z :
  chdir_to_source stage w = (Return tt, w1) ->
  over_file p w1 f B ->
  level p = PyInt z ->
  exists s,
    execs (log (snd (Patch_apply c stage (mkState p w []))))
    = [["-s"; "-p"; s; "-i"; f]]
    /\ parse_int s = Some z.
Proof.
  intros H Hover Hz. exists (str (level p)). split.
  - rewrite (apply_local c stage p w [] w1 f B H Hover). reflexivity.
  - rewrite Hz. apply str_int_round_trip.
Qed.

Lemma strip_argument_round_trip_witness :
  exists s,
    execs (log (snd (Patch_apply (Scenario.env Scenario.tool_ok)
                                 Scenario.stage
                                 (mkState Scenario.patchA Scenario.w0 []))))
    = [["-s"; "-p"; s; "-i"; Scenario.fix_build]]
    /\ parse_int s = Some 1.
Proof.
  apply (strip_argument_round_trip
           (Scenario.env Scenario.tool_ok) Scenario.stage Scenario.patchA
           Scenario.w0 (mkWorld Scenario.disk "/stage/foo/src")
           Scenario.fix_build Scenario.diff 1).
  - reflexivity.
  - repeat split.
  - reflexivity.
Defined.

(* ===================================================================== *)
(** ** The shape of a fingerprint *)
(* ===================================================================== *)

Lemma lower_append (s t : string) :
  Str.lower (s ++ t) = (Str.lower s ++ Str.lower t)%string.
Proof. induction s; simpl; congruence. Qed.

Lemma lower_of_list (l : list ascii) :
  Str.lower (string_of_list_ascii l)
  = string_of_list_ascii (map Str.lower_char l).
Proof. induction l; simpl; congruence. Qed.

Lemma string_of_list_app (l1 l2 : list ascii) :
  string_of_list_ascii (l1 ++ l2)
  = (string_of_list_ascii l1 ++ string_of_list_ascii l2)%string.
Proof. induction l1; simpl; congruence. Qed.

Lemma split5 (x : Z) : x = 32 * Z.shiftr x 5 + Z.land x 31.
Proof.
  change 31 with (Z.ones 5). rewrite Z.land_ones by lia.
  rewrite Z.shiftr_div_pow2 by lia. change (2 ^ 5) with 32.
  apply Z.div_mod. lia.
Qed.

Lemma land31_bounds (x : Z) : 0 <= Z.land x 31 < 32.
Proof.
  change 31 with (Z.ones 5). rewrite Z.land_ones by lia.
  change (2 ^ 5) with 32. apply Z.mod_pos_bound. lia.
Qed.

Lemma digit_is_base32_char (v s : Z) :
  Base32.digit v s = base32_char (Z.to_nat (Z.land (Z.shiftr v s) 31)).
Proof. reflexivity. Qed.

(** Lowering a digit gives a lowercase digit, and the place of the digit
    can be read back from it. *)
Lemma lower_base32_char (n : nat) :
  (n < 32)%nat ->
  base32_lower_digit (Str.lower_char (base32_char n)) = true
  /\ base32_lower_index (Str.lower_char (base32_char n)) = n.
Proof.
  intros Hn.
  do 32 (destruct n as [|n]; [split; reflexivity|]). lia.
Qed.

Lemma digit_index_bound (v s : Z) :
  (Z.to_nat (Z.land (Z.shiftr v s) 31) < 32)%nat.
Proof. pose proof (land31_bounds (Z.shiftr v s)). lia. Qed.

Lemma lower_digit_ok (v s : Z) :
  base32_lower_digit (Str.lower_char (Base32.digit v s)) = true.
Proof.
  rewrite digit_is_base32_char.
  apply lower_base32_char, digit_index_bound.
Qed.

Lemma lower_digit_inj (v v' s : Z) :
  Str.lower_char (Base32.digit v s) = Str.lower_char (Base32.digit v' s) ->
  Z.land (Z.shiftr v s) 31 = Z.land (Z.shiftr v' s) 31.
Proof.
  rewrite !digit_is_base32_char. intros H.
  apply (f_equal base32_lower_index) in H.
  rewrite !(proj2 (lower_base32_char _ (digit_index_bound _ _))) in H.
  pose proof (land31_bounds (Z.shiftr v s)).
  pose proof (land31_bounds (Z.shiftr v' s)). lia.
Qed.

(** The text of sixteen bytes: three full groups and one group of a single
    byte, which gives two digits and six padding characters. *)
Lemma lower_b32encode_16 b0 b1 b2 b3 b4 b5 b6 b7 b8 b9 b10 b11 b12 b13 b14
    b15 :
  Str.lower
    (Base32.b32encode
       [b0; b1; b2; b3; b4; b5; b6; b7; b8; b9; b10; b11; b12; b13; b14;
        b15])
  = string_of_list_ascii
      (map Str.lower_char
         (map (Base32.digit (Base32.be40 b0 b1 b2 b3 b4)) quantum_shifts
          ++ map (Base32.digit (Base32.be40 b5 b6 b7 b8 b9)) quantum_shifts
          ++ map (Base32.digit (Base32.be40 b10 b11 b12 b13 b14))
                 quantum_shifts
          ++ [Base32.digit (Base32.be40 b15 x00 x00 x00 x00) 35;
              Base32.digit (Base32.be40 b15 x00 x00 x00 x00) 30]
          ++ repeat "="%char 6)).
Proof.
  cbn [Base32.b32encode]. rewrite <- lower_of_list.
  rewrite !string_of_list_app. reflexivity.
Qed.

Lemma sixteen_bytes (l : list byte) :
  List.length l = 16%nat ->
  exists b0 b1 b2 b3 b4 b5 b6 b7 b8 b9 b10 b11 b12 b13 b14 b15,
    l = [b0; b1; b2; b3; b4; b5; b6; b7; b8; b9; b10; b11; b12; b13; b14;
         b15].
Proof.
  intros Hl.
  do 16 (destruct l as [|? l]; [discriminate|]).
  destruct l; [|discriminate].
  repeat eexists.
Qed.

Lemma to_Z_bounds (b : byte) : 0 <= Bytes.to_Z b < 256.
Proof.
  unfold Bytes.to_Z. pose proof (Byte.to_N_bounded b). lia.
Qed.

Lemma to_Z_inj (a b : byte) : Bytes.to_Z a = Bytes.to_Z b -> a = b.
Proof.
  unfold Bytes.to_Z. intros H. apply N2Z.inj in H.
  pose proof (Byte.of_to_N a) as Ha. rewrite H, Byte.of_to_N in Ha.
  congruence.
Qed.

Lemma be40_value (a b c d e : byte) :
  Base32.be40 a b c d e
  = Bytes.to_Z a * 2 ^ 32 + Bytes.to_Z b * 2 ^ 24 + Bytes.to_Z c * 2 ^ 16
    + Bytes.to_Z d * 2 ^ 8 + Bytes.to_Z e.
Proof.
  unfold Base32.be40. rewrite !Z.shiftl_mul_pow2 by lia. reflexivity.
Qed.

(** A group of at most 40 bits is the sum of its eight digits. *)
Lemma digits_determine_group (v v' : Z) :
  0 <= v < 2 ^ 40 -> 0 <= v' < 2 ^ 40 ->
  Forall (fun s => Z.land (Z.shiftr v s) 31 = Z.land (Z.shiftr v' s) 31)
         quantum_shifts ->
  v = v'.
Proof.
  intros Hv Hv' H.
  assert (Hsum : forall x, 0 <= x < 2 ^ 40 ->
            x = Z.land (Z.shiftr x 0) 31
                + 32 * (Z.land (Z.shiftr x 5) 31
                + 32 * (Z.land (Z.shiftr x 10) 31
                + 32 * (Z.land (Z.shiftr x 15) 31
                + 32 * (Z.land (Z.shiftr x 20) 31
                + 32 * (Z.land (Z.shiftr x 25) 31
                + 32 * (Z.land (Z.shiftr x 30) 31
                + 32 * Z.land (Z.shiftr x 35) 31))))))).
  { clear. intros x Hx.
    assert (Hstep : forall s t, 0 <= s -> t = s + 5 ->
              Z.shiftr x s
              = 32 * Z.shiftr x t + Z.land (Z.shiftr x s) 31).
    { intros s t Hs ->. rewrite <- Z.shiftr_shiftr by lia. apply split5. }
    assert (Htop : Z.shiftr x 40 = 0).
    { rewrite Z.shiftr_div_pow2 by lia. apply Z.div_small. exact Hx. }
    pose proof (Hstep 0 5 ltac:(lia) ltac:(lia)) as H0.
    pose proof (Hstep 5 10 ltac:(lia) ltac:(lia)) as H5.
    pose proof (Hstep 10 15 ltac:(lia) ltac:(lia)) as H10.
    pose proof (Hstep 15 20 ltac:(lia) ltac:(lia)) as H15.
    pose proof (Hstep 20 25 ltac:(lia) ltac:(lia)) as H20.
    pose proof (Hstep 25 30 ltac:(lia) ltac:(lia)) as H25.
    pose proof (Hstep 30 35 ltac:(lia) ltac:(lia)) as H30.
    pose proof (Hstep 35 40 ltac:(lia) ltac:(lia)) as H35.
    rewrite Htop in H35.
    rewrite Z.shiftr_0_r in *. lia. }
  unfold quantum_shifts in H.
  repeat match goal with
         | H : Forall _ (_ :: _) |- _ =>
             let Hh := fresh "Hd" in
             let Ht := fresh "Ht" in
             apply Forall_cons_iff in H; destruct H as [Hh Ht]
         end.
  rewrite (Hsum v Hv), (Hsum v' Hv'). congruence.
Qed.

Lemma be40_inj (a b c d e a' b' c' d' e' : byte) :
  Forall (fun s =>
            Z.land (Z.shiftr (Base32.be40 a b c d e) s) 31
            = Z.land (Z.shiftr (Base32.be40 a' b' c' d' e') s) 31)
         quantum_shifts ->
  a = a' /\ b = b' /\ c = c' /\ d = d' /\ e = e'.
Proof.
  intros H.
  pose proof (to_Z_bounds a). pose proof (to_Z_bounds b).
  pose proof (to_Z_bounds c). pose proof (to_Z_bounds d).
  pose proof (to_Z_bounds e). pose proof (to_Z_bounds a').
  pose proof (to_Z_bounds b'). pose proof (to_Z_bounds c').
  pose proof (to_Z_bounds d'). pose proof (to_Z_bounds e').
  apply digits_determine_group in H.
  - rewrite !be40_value in H.
    repeat split; apply to_Z_inj; lia.
  - rewrite be40_value. lia.
  - rewrite be40_value. lia.
Qed.

(** The last byte of a digest is written on two digits. *)
Lemma be40_last_inj (a a' : byte) :
  Z.land (Z.shiftr (Base32.be40 a x00 x00 x00 x00) 35) 31
  = Z.land (Z.shiftr (Base32.be40 a' x00 x00 x00 x00) 35) 31 ->
  Z.land (Z.shiftr (Base32.be40 a x00 x00 x00 x00) 30) 31
  = Z.land (Z.shiftr (Base32.be40 a' x00 x00 x00 x00) 30) 31 ->
  a = a'.
Proof.
  assert (Hlast : forall x : byte,
            4 * Bytes.to_Z x
            = 32 * Z.land (Z.shiftr (Base32.be40 x x00 x00 x00 x00) 35) 31
              + Z.land (Z.shiftr (Base32.be40 x x00 x00 x00 x00) 30) 31).
  { intros x. pose proof (to_Z_bounds x) as Hx.
    set (v := Base32.be40 x x00 x00 x00 x00).
    assert (Hv : v = (4 * Bytes.to_Z x) * 2 ^ 30).
    { unfold v. rewrite be40_value. change (Bytes.to_Z x00) with 0. lia. }
    assert (H30 : Z.shiftr v 30 = 4 * Bytes.to_Z x).
    { rewrite Z.shiftr_div_pow2, Hv by lia. apply Z.div_mul. lia. }
    assert (H40 : Z.shiftr v 40 = 0).
    { rewrite Z.shiftr_div_pow2 by lia. apply Z.div_small. lia. }
    pose proof (split5 (Z.shiftr v 30)) as S30.
    pose proof (split5 (Z.shiftr v 35)) as S35.
    rewrite Z.shiftr_shiftr in S30, S35 by lia.
    change (30 + 5) with 35 in S30. change (35 + 5) with 40 in S35.
    rewrite H40 in S35. lia. }
  intros H35 H30. apply to_Z_inj.
  pose proof (Hlast a). pose proof (Hlast a'). lia.
Qed.

(** The fingerprint returned by [file_hash] always has 32 characters:
    twenty-six lowercase base-32 digits ([a] to [z], [2] to [7]) and then
    six [=]. *)
Theorem fingerprint_format (B : list byte) :
  exists body,
    fingerprint B = (body ++ "======")%string
    /\ String.length body = 26%nat
    /\ forallb base32_lower_digit (list_ascii_of_string body) = true.
Proof.
  destruct (sixteen_bytes _ (digest_length B))
    as (b0 & b1 & b2 & b3 & b4 & b5 & b6 & b7 & b8 & b9 & b10 & b11 & b12
        & b13 & b14 & b15 & Hd).
  unfold fingerprint. rewrite Hd, lower_b32encode_16.
  cbn [quantum_shifts map app repeat].
  eexists (string_of_list_ascii (_ :: _ :: _ :: _ :: _ :: _ :: _ :: _ :: _
             :: _ :: _ :: _ :: _ :: _ :: _ :: _ :: _ :: _ :: _ :: _ :: _
             :: _ :: _ :: _ :: _ :: _ :: [])).
  split; [|split].
  - cbn [string_of_list_ascii String.append]. reflexivity.
  - reflexivity.
  - rewrite list_ascii_of_string_of_list_ascii. cbn [forallb].
    rewrite !lower_digit_ok. reflexivity.
Qed.

(** The text loses nothing of the digest: two contents have the same
    fingerprint only if they have the same MD5 digest. *)
Theorem fingerprint_determines_digest (B1 B2 : list byte) :
  fingerprint B1 = fingerprint B2 -> MD5.digest B1 = MD5.digest B2.
Proof.
  destruct (sixteen_bytes _ (digest_length B1))
    as (b0 & b1 & b2 & b3 & b4 & b5 & b6 & b7 & b8 & b9 & b10 & b11 & b12
        & b13 & b14 & b15 & Hd).
  destruct (sixteen_bytes _ (digest_length B2))
    as (c0 & c1 & c2 & c3 & c4 & c5 & c6 & c7 & c8 & c9 & c10 & c11 & c12
        & c13 & c14 & c15 & Hd').
  unfold fingerprint. rewrite Hd, Hd', !lower_b32encode_16. intros H.
  apply (f_equal list_ascii_of_string) in H.
  rewrite !list_ascii_of_string_of_list_ascii in H.
  cbn [quantum_shifts map app repeat] in H.
  injection H as H.
  repeat match goal with
         | H : Str.lower_char (Base32.digit _ _)
               = Str.lower_char (Base32.digit _ _) |- _ =>
             apply lower_digit_inj in H
         end.
  destruct (be40_inj b0 b1 b2 b3 b4 c0 c1 c2 c3 c4)
    as (-> & -> & -> & -> & ->);
    [unfold quantum_shifts; repeat constructor; assumption|].
  destruct (be40_inj b5 b6 b7 b8 b9 c5 c6 c7 c8 c9)
    as (-> & -> & -> & -> & ->);
    [unfold quantum_shifts; repeat constructor; assumption|].
  destruct (be40_inj b10 b11 b12 b13 b14 c10 c11 c12 c13 c14)
    as (-> & -> & -> & -> & ->);
    [unfold quantum_shifts; repeat constructor; assumption|].
  rewrite (be40_last_inj b15 c15) by assumption.
  reflexivity.
Qed.

Lemma fingerprint_determines_digest_witness :
  MD5.digest Scenario.diff
  = MD5.digest (Bytes.of_string "--- a/x" ++ [x0a]
                  ++ Bytes.of_string "+++ b/x" ++ [x0a]).
Proof.
  apply (fingerprint_determines_digest
           Scenario.diff
           (Bytes.of_string "--- a/x" ++ [x0a]
              ++ Bytes.of_string "+++ b/x" ++ [x0a])).
  reflexivity.
Defined.

(* ===================================================================== *)
(** ** What construction touches *)
(* ===================================================================== *)

(** Whatever its arguments and whether it succeeds or not, the constructor
    does nothing, or looks up the directory of the package once and tests
    the resolved path once: it never opens the patch file, never fetches
    and never runs the tool. *)
Theorem new_touches_at_most_the_resolved_path c pkg spec lvl w :
  snd (Patch_new c pkg spec lvl w) = []
  \/ snd (Patch_new c pkg spec lvl w)
     = [EvDirname (name pkg); EvIsfile (local_path c pkg spec)].
Proof.
  destruct (negb (isinstance_int lvl) || negb (0 <=? int_value lvl)) eqn:Hl.
  { apply level_test_true_iff in Hl.
    rewrite (new_bad_level c pkg spec lvl w Hl). left. reflexivity. }
  apply level_test_false_iff in Hl.
  destruct (Str.contains "://" spec) eqn:Hs.
  - apply contains_true_iff in Hs.
    rewrite (new_remote c pkg spec lvl w Hl Hs). left. reflexivity.
  - apply contains_false_iff in Hs.
    destruct (isfile w (local_path c pkg spec)) eqn:Hf.
    + apply isfile_true_iff in Hf.
      rewrite (new_local_found c pkg spec lvl w Hl Hs Hf).
      right. reflexivity.
    + assert (Hnf : ~ regular_file w (local_path c pkg spec)).
      { rewrite <- isfile_true_iff. congruence. }
      rewrite (new_local_missing c pkg spec lvl w Hl Hs Hnf).
      right. reflexivity.
Qed.
